(** * Timetable store, drag repositioning, catalog cache and search filter

    A shallow embedding of the timetable application:
    - [ScheduleContext.tsx]: the multi-table store and its write actions;
    - [ScheduleTables.tsx]: the table list with its duplicate / remove buttons;
    - [ScheduleDndProvider.tsx]: the snap modifier and the drag-end handler;
    - [SearchDialog.tsx]: the catalog fetch cache and the lecture filter.

    JavaScript numbers that hold grid indices, slot numbers and clock values
    are integers of [Z]; pixel quantities are exact rationals of [Q] (the
    binary rounding of a quotient is not modelled).  A [Record<string, T>]
    is a [gmap string T]; arrays are lists. *)

From Stdlib Require Import ZArith QArith Qround Qminmax Lqa String Ascii Lia.
From stdpp Require Import gmap strings list fin_maps pretty.

Local Open Scope string_scope.
Local Open Scope list_scope.
Local Open Scope Z_scope.

(** ** The fragment of the JavaScript runtime the program relies on *)

Module JS.

(** Exceptions raised by the runtime itself. *)
Inductive Error : Type :=
| TypeError.

(** Outcome of evaluating an expression that may throw. *)
Inductive Result (A : Type) : Type :=
| Ok (a : A)
| Throw (e : Error).
Arguments Ok {A} a.
Arguments Throw {A} e.

Definition bind {A B : Type} (r : Result A) (k : A -> Result B) : Result B :=
  match r with
  | Ok a => k a
  | Throw e => Throw e
  end.

Definition is_Ok {A : Type} (r : Result A) : bool :=
  match r with Ok _ => true | Throw _ => false end.

(** [obj[key]] on an object used as a dictionary, where the value is then
    iterated, spread or called on: [undefined] makes that a [TypeError]. *)
Definition get_iterable {V : Type} (obj : gmap string V) (key : string) : Result V :=
  match obj !! key with
  | Some v => Ok v
  | None => Throw TypeError
  end.

(** [String(n)] and template interpolation of an integer-valued number. *)
Definition String_of_number (n : Z) : string := pretty n.

(** [s.startsWith(p)]. *)
Definition startsWith (s p : string) : bool := String.prefix p s.

(** [s.includes(p)]: [p] occurs as a contiguous substring of [s]. *)
Fixpoint includes (s p : string) : bool :=
  String.prefix p s ||
  match s with
  | EmptyString => false
  | String _ rest => includes rest p
  end.

(** [xs.includes(x)] on arrays of numbers and of strings. *)
Definition includes_number (xs : list Z) (x : Z) : bool :=
  existsb (Z.eqb x) xs.

Definition includes_string (xs : list string) (x : string) : bool :=
  existsb (String.eqb x) xs.

(** [xs.indexOf(x)]: first position of [x], or [-1]. *)
Fixpoint indexOf_from (xs : list string) (x : string) (i : Z) : Z :=
  match xs with
  | [] => -1
  | y :: ys => if String.eqb y x then i else indexOf_from ys x (i + 1)
  end.

Definition indexOf (xs : list string) (x : option string) : Z :=
  match x with
  | Some s => indexOf_from xs s 0
  | None => -1
  end.

(** [s.split(sep)] for a one-character separator. *)
Fixpoint split_go (sep : ascii) (s : string) (cur : string) : list string :=
  match s with
  | EmptyString => [String.rev cur]
  | String c rest =>
      if Ascii.eqb c sep
      then String.rev cur :: split_go sep rest EmptyString
      else split_go sep rest (String c cur)
  end.

Definition split (sep : ascii) (s : string) : list string :=
  split_go sep s EmptyString.

(** [Math.floor] and [Math.round].  [Math.round] is "round half up":
    the largest integer not above [q + 1/2]. *)
Definition Math_floor (q : Q) : Z := Qfloor q.
Definition Math_round (q : Q) : Z := Qfloor (q + (1 # 2)).

Definition Math_min (a b : Q) : Q := Qmin a b.
Definition Math_max (a b : Q) : Q := Qmax a b.

End JS.

(** ** [Number(text)]: the conversion of a string to a number

    [StringToNumber] of the language: white space around an optional
    [StrNumericLiteral], whose mathematical value is rounded to the nearest
    double.  Texts are sequences of UTF-8 bytes. *)

Module JSNumbers.

(** A number value: its exact mathematical value when finite
    ([-0] and [+0] are both [Finite 0]; they are equal under [===]). *)
Inductive Number : Type :=
| NaN
| Infinite (negative : bool)
| Finite (q : Q).

Definition byte (c : ascii) : Z := Z.of_nat (nat_of_ascii c).

(** One-byte white space and line terminators: TAB, LF, VT, FF, CR, SP. *)
Definition is_space1 (a : ascii) : bool :=
  let n := byte a in
  ((9 <=? n) && (n <=? 13)) || (n =? 32).

(** U+00A0 in UTF-8. *)
Definition is_space2 (a b : ascii) : bool :=
  (byte a =? 194) && (byte b =? 160).

(** U+1680, U+2000..U+200A, U+2028, U+2029, U+202F, U+205F, U+3000 and
    U+FEFF in UTF-8. *)
Definition is_space3 (a b c : ascii) : bool :=
  let x := byte a in
  let y := byte b in
  let z := byte c in
  ((x =? 225) && (y =? 154) && (z =? 128))
  || ((x =? 226) && (y =? 128)
      && (((128 <=? z) && (z <=? 138)) || (z =? 168) || (z =? 169) || (z =? 175)))
  || ((x =? 226) && (y =? 129) && (z =? 159))
  || ((x =? 227) && (y =? 128) && (z =? 128))
  || ((x =? 239) && (y =? 187) && (z =? 191)).

(** Drops the white space at the head of the text. *)
Fixpoint skip_space (s : string) : string :=
  match s with
  | String a rest1 =>
      if is_space1 a then skip_space rest1
      else
        match rest1 with
        | String b rest2 =>
            if is_space2 a b then skip_space rest2
            else
              match rest2 with
              | String c rest3 => if is_space3 a b c then skip_space rest3 else s
              | EmptyString => s
              end
        | EmptyString => s
        end
  | EmptyString => s
  end.

(** The value of a digit of the given base, for [0-9], [a-f] and [A-F]. *)
Definition digit_value (base : Z) (c : ascii) : option Z :=
  let n := byte c in
  let v := if (48 <=? n) && (n <=? 57) then Some (n - 48)
           else if (97 <=? n) && (n <=? 102) then Some (n - 87)
           else if (65 <=? n) && (n <=? 70) then Some (n - 55)
           else None in
  match v with
  | Some d => if d <? base then Some d else None
  | None => None
  end.

(** The longest run of digits at the head of the text: how many there are,
    their value, and the text after them. *)
Fixpoint take_digits (base : Z) (s : string) (count : nat) (acc : Z)
    : nat * Z * string :=
  match s with
  | String c rest =>
      match digit_value base c with
      | Some d => take_digits base rest (S count) (base * acc + d)
      | None => (count, acc, s)
      end
  | EmptyString => (count, acc, s)
  end.

Definition power (base : Z) (e : Z) : Q :=
  if 0 <=? e then inject_Z (base ^ e) else (1 / inject_Z (base ^ (- e)))%Q.

(** [ExponentPart], when the text starts with one: its value and the text
    after it; otherwise exponent [0] and the text itself. *)
Definition exponent_part (s : string) : Z * string :=
  match s with
  | String c rest =>
      if (byte c =? 101) || (byte c =? 69) then
        let '(negative, after_sign) :=
          match rest with
          | String sign r =>
              if byte sign =? 43 then (false, r)
              else if byte sign =? 45 then (true, r)
              else (false, rest)
          | EmptyString => (false, rest)
          end in
        let '(n, v, after) := take_digits 10 after_sign 0 0 in
        if (n =? 0)%nat then (0, s)
        else (if negative then - v else v, after)
      else (0, s)
  | EmptyString => (0, s)
  end.

(** [StrUnsignedDecimalLiteral] at the head of the text: its value and the
    text after it. *)
Definition unsigned_decimal (s : string) : option (Number * string) :=
  if String.prefix "Infinity" s then Some (Infinite false, String.substring 8 (String.length s - 8) s)
  else
    let '(n1, v1, after_int) := take_digits 10 s 0 0 in
    let '(n2, v2, after_frac) :=
      match after_int with
      | String dot r => if byte dot =? 46 then take_digits 10 r 0 0 else (0%nat, 0, after_int)
      | EmptyString => (0%nat, 0, after_int)
      end in
    if (n1 =? 0)%nat && (n2 =? 0)%nat then None
    else
      let '(e, after) := exponent_part after_frac in
      Some (Finite ((inject_Z v1 + inject_Z v2 * power 10 (- Z.of_nat n2)) * power 10 e)%Q,
            after).

Definition negate (n : Number) : Number :=
  match n with
  | NaN => NaN
  | Infinite negative => Infinite (negb negative)
  | Finite q => Finite (- q)%Q
  end.

(** [StrDecimalLiteral]: an unsigned literal with an optional sign. *)
Definition decimal_literal (s : string) : option (Number * string) :=
  match s with
  | String sign r =>
      if byte sign =? 43 then unsigned_decimal r
      else if byte sign =? 45 then
        match unsigned_decimal r with
        | Some (n, after) => Some (negate n, after)
        | None => None
        end
      else unsigned_decimal s
  | EmptyString => None
  end.

(** [NonDecimalIntegerLiteral]: [0x], [0o] or [0b] and at least one digit. *)
Definition non_decimal_literal (s : string) : option (Number * string) :=
  match s with
  | String zero (String p r) =>
      if byte zero =? 48 then
        let base := if (byte p =? 120) || (byte p =? 88) then Some 16
                    else if (byte p =? 111) || (byte p =? 79) then Some 8
                    else if (byte p =? 98) || (byte p =? 66) then Some 2
                    else None in
        match base with
        | Some b =>
            let '(n, v, after) := take_digits b r 0 0 in
            if (n =? 0)%nat then None else Some (Finite (inject_Z v), after)
        | None => None
        end
      else None
  | _ => None
  end.

(** [floor(log2 v)] for a positive [v]. *)
Definition ilog2 (v : Q) : Z :=
  let d := Z.log2 (Qnum v) - Z.log2 (Z.pos (Qden v)) in
  if Qle_bool (power 2 d) v then d else d - 1.

(** Nearest integer, ties to the even one. *)
Definition round_half_even (m : Q) : Z :=
  let f := Qfloor m in
  match (m - inject_Z f ?= 1 # 2)%Q with
  | Lt => f
  | Gt => f + 1
  | Eq => if Z.even f then f else f + 1
  end.

(** The double nearest to a non-negative real (round to nearest, ties to
    even), with 53 bits of precision, subnormals below [2^-1022] and
    overflow to infinity from [2^1024].  A literal of more than 20
    significant digits is rounded from its exact value as well, which is
    one of the two results the language allows for it. *)
Definition nearest_double (v : Q) : Number :=
  if Qeq_bool v 0 then Finite 0
  else
    let e := ilog2 v in
    let k := Z.max (e - 52) (- 1074) in
    let x := (inject_Z (round_half_even (v / power 2 k)) * power 2 k)%Q in
    if Qle_bool (power 2 1024) x then Infinite false else Finite x.

Definition to_double (n : Number) : Number :=
  match n with
  | Finite q => if Qle_bool 0 q then nearest_double q else negate (nearest_double (- q))
  | _ => n
  end.

(** The literal must be followed by white space only. *)
Definition whole (r : option (Number * string)) : option Number :=
  match r with
  | Some (n, after) =>
      match skip_space after with
      | EmptyString => Some n
      | _ => None
      end
  | None => None
  end.

(** [StringToNumber]: white space around an optional numeric literal. *)
Definition StringToNumber (s : string) : Number :=
  match skip_space s with
  | EmptyString => Finite 0
  | t =>
      match whole (non_decimal_literal t) with
      | Some n => to_double n
      | None =>
          match whole (decimal_literal t) with
          | Some n => to_double n
          | None => NaN
          end
      end
  end.

(** The integer a number is equal to, if there is one. *)
Definition integer_value (n : Number) : option Z :=
  match n with
  | Finite q => if Qeq_bool (inject_Z (Qfloor q)) q then Some (Qfloor q) else None
  | _ => None
  end.

End JSNumbers.

(** ** Data model ([types.ts]) *)

Module Types.

(** Modelled from the spec: [types.ts] is not among the sources.  A catalog
    entry carries [id], [title], [credits], [grade], [major] and the raw
    schedule string; the code reads [credits] and [schedule] as strings and
    [grade] as a number. *)
Record Lecture : Type := mkLecture {
  id : string;
  title : string;
  credits : string;
  major : string;
  schedule : string;
  grade : Z
}.

(** Modelled from the spec: [types.ts] is not among the sources.  A placed
    session: [{ day, range, room, lecture }]. *)
Record Schedule : Type := mkSchedule {
  day : string;
  range : list Z;
  room : string;
  lecture : Lecture
}.

End Types.

(** ** The store ([ScheduleContext.tsx]) *)

Module ScheduleContext.
Import JS Types.

(** [Record<string, Schedule[]>] *)
Abbreviation SchedulesMap := (gmap string (list Schedule)).

(** Each write action hands [setSchedulesMap] an updater [prev => next]; the
    definitions below are those updaters.  An updater that throws publishes
    no new mapping. *)

Definition addSchedule (tableId : string) (schedules : list Schedule)
    (prev : SchedulesMap) : Result SchedulesMap :=
  bind (get_iterable prev tableId) (fun current =>
  Ok (<[tableId := (current ++ schedules)%list]> prev)).

Definition removeSchedule (tableId : string) (day : string) (time : Z)
    (prev : SchedulesMap) : Result SchedulesMap :=
  bind (get_iterable prev tableId) (fun current =>
  Ok (<[tableId :=
          List.filter (fun schedule =>
                    negb (String.eqb (Types.day schedule) day)
                    || negb (includes_number (range schedule) time))
                 current]> prev)).

(** [`schedule-${Date.now()}`] *)
Definition newTableId (now : Z) : string :=
  ("schedule-" ++ String_of_number now)%string.

(** [now] is the value [Date.now()] returns inside the updater. *)
Definition duplicateTable (tableId : string) (now : Z)
    (prev : SchedulesMap) : Result SchedulesMap :=
  bind (get_iterable prev tableId) (fun current =>
  Ok (<[newTableId now := current]> prev)).

(** [const { [tableId]: removed, ...rest } = prev; return rest] *)
Definition removeTable (tableId : string) (prev : SchedulesMap) : SchedulesMap :=
  delete tableId prev.

(** The callback given to [map] by [updateSchedulePosition]. *)
Definition reposition (scheduleIndex : Z) (newDay : string) (timeOffset : Z)
    (index : nat) (schedule : Schedule) : Schedule :=
  if negb (Z.of_nat index =? scheduleIndex) then schedule
  else {| day := newDay;
          range := List.map (fun time => time + timeOffset) (range schedule);
          room := room schedule;
          lecture := lecture schedule |}.

Definition updateSchedulePosition (tableId : string) (scheduleIndex : Z)
    (newDay : string) (timeOffset : Z)
    (prev : SchedulesMap) : Result SchedulesMap :=
  bind (get_iterable prev tableId) (fun current =>
  Ok (<[tableId := imap (reposition scheduleIndex newDay timeOffset) current]> prev)).

(** The write surface as data, for statements that range over every action. *)
Inductive WriteOp : Type :=
| AddSchedule (tableId : string) (schedules : list Schedule)
| RemoveSchedule (tableId : string) (day : string) (time : Z)
| DuplicateTable (tableId : string) (now : Z)
| RemoveTable (tableId : string)
| UpdateSchedulePosition (tableId : string) (scheduleIndex : Z)
    (newDay : string) (timeOffset : Z).

Definition run (op : WriteOp) (prev : SchedulesMap) : Result SchedulesMap :=
  match op with
  | AddSchedule t ss => addSchedule t ss prev
  | RemoveSchedule t d time => removeSchedule t d time prev
  | DuplicateTable t now => duplicateTable t now prev
  | RemoveTable t => Ok (removeTable t prev)
  | UpdateSchedulePosition t i d off => updateSchedulePosition t i d off prev
  end.

(** The only key of the mapping an action assigns or deletes. *)
Definition written_key (op : WriteOp) : string :=
  match op with
  | AddSchedule t _ => t
  | RemoveSchedule t _ _ => t
  | DuplicateTable _ now => newTableId now
  | RemoveTable t => t
  | UpdateSchedulePosition t _ _ _ => t
  end.

(** The table an action is invoked on: its [tableId] argument. *)
Definition invoked_on (op : WriteOp) : string :=
  match op with
  | AddSchedule t _ => t
  | RemoveSchedule t _ _ => t
  | DuplicateTable t _ => t
  | RemoveTable t => t
  | UpdateSchedulePosition t _ _ _ => t
  end.

(** Whether an action is a duplication whose generated id is [k]. *)
Definition generates (k : string) (op : WriteOp) : bool :=
  match op with
  | DuplicateTable _ now => String.eqb (newTableId now) k
  | _ => false
  end.

(** Running a list of actions in order; the first one to throw stops it. *)
Fixpoint run_all (ops : list WriteOp) (prev : SchedulesMap) : Result SchedulesMap :=
  match ops with
  | [] => Ok prev
  | op :: rest => bind (run op prev) (run_all rest)
  end.

End ScheduleContext.

(** ** Grid constants ([constants.ts]) *)

Module Constants.

Definition DAY_LABELS : list string := ["월"; "화"; "수"; "목"; "금"; "토"].

Module CellSize.
Definition WIDTH : Q := 80.
Definition HEIGHT : Q := 30.
End CellSize.

End Constants.

(** ** Drag repositioning ([ScheduleDndProvider.tsx]) *)

Module ScheduleDndProvider.
Import JS Types Constants.

Record ClientRect : Type := mkRect {
  top : Q;
  left : Q;
  bottom : Q;
  right : Q
}.

Record Transform : Type := mkTransform {
  x : Q;
  y : Q;
  scaleX : Q;
  scaleY : Q
}.

(** [rect?.field ?? 0] *)
Definition field_or_0 (field : ClientRect -> Q) (rect : option ClientRect) : Q :=
  match rect with
  | Some r => field r
  | None => 0%Q
  end.

(** The modifier returned by [createSnapModifier()]. *)
Definition createSnapModifier (transform : Transform)
    (containerNodeRect draggingNodeRect : option ClientRect) : Transform :=
  let containerTop := field_or_0 top containerNodeRect in
  let containerLeft := field_or_0 left containerNodeRect in
  let containerBottom := field_or_0 bottom containerNodeRect in
  let containerRight := field_or_0 right containerNodeRect in
  let top := field_or_0 top draggingNodeRect in
  let left := field_or_0 left draggingNodeRect in
  let bottom := field_or_0 bottom draggingNodeRect in
  let right := field_or_0 right draggingNodeRect in
  let minX := (containerLeft - left + 120 + 1)%Q in
  let minY := (containerTop - top + 40 + 1)%Q in
  let maxX := (containerRight - right)%Q in
  let maxY := (containerBottom - bottom)%Q in
  {| x := Math_min (Math_max
                      (inject_Z (Math_round (x transform / CellSize.WIDTH)) * CellSize.WIDTH)%Q
                      minX) maxX;
     y := Math_min (Math_max
                      (inject_Z (Math_round (y transform / CellSize.HEIGHT)) * CellSize.HEIGHT)%Q
                      minY) maxY;
     scaleX := scaleX transform;
     scaleY := scaleY transform |}.

(** The part of the drag-end event the handler reads: [active.id],
    [active.data.current?.day] and [delta]. *)
Record DragEndEvent : Type := mkDragEnd {
  active_id : string;
  active_day : option string;
  delta_x : Q;
  delta_y : Q
}.

(** [Number(index)] for the second piece of a draggable id, as far as the
    comparison [index !== scheduleIndex] with an array index can tell: the
    integer the number is equal to, or [None] for [NaN], an infinity or a
    fraction, none of which equals an index.  A missing piece ([undefined])
    converts to [NaN]. *)
Definition Number_ (index : option string) : option Z :=
  match index with
  | None => None
  | Some s => JSNumbers.integer_value (JSNumbers.StringToNumber s)
  end.

(** The arguments of the one call the handler may make. *)
Record PositionUpdate : Type := mkUpdate {
  upd_tableId : string;
  upd_scheduleIndex : option Z;
  upd_newDay : string;
  upd_timeOffset : Z
}.

(** [handleDragEnd] of the provider mounted for [tableId]: the call to
    [updateSchedulePosition] it makes, or [None] when it returns early. *)
Definition handleDragEnd (tableId : string) (event : DragEndEvent)
    : option PositionUpdate :=
  let x := delta_x event in
  let y := delta_y event in
  let pieces := split ":" (active_id event) in
  let draggedTableId := pieces !! 0%nat in
  let index := pieces !! 1%nat in
  if negb (bool_decide (draggedTableId = Some tableId)) then None
  else
    let nowDayIndex := indexOf DAY_LABELS (active_day event) in
    let moveDayIndex := Math_floor (x / CellSize.WIDTH) in
    let moveTimeIndex := Math_floor (y / CellSize.HEIGHT) in
    let newDayIndex := nowDayIndex + moveDayIndex in
    if (newDayIndex <? 0) || (newDayIndex >=? Z.of_nat (length DAY_LABELS)) then None
    else
      let newDay := nth (Z.to_nat newDayIndex) DAY_LABELS "" in
      let timeOffset := moveTimeIndex in
      Some {| upd_tableId := tableId;
              upd_scheduleIndex := Number_ index;
              upd_newDay := newDay;
              upd_timeOffset := timeOffset |}.

(** The store updater a drop results in.  A number that is no integer
    differs from every array index, like [-1]. *)
Definition commit (u : PositionUpdate)
    : ScheduleContext.SchedulesMap -> Result ScheduleContext.SchedulesMap :=
  ScheduleContext.updateSchedulePosition (upd_tableId u)
    (default (-1) (upd_scheduleIndex u)) (upd_newDay u) (upd_timeOffset u).

Definition drop (tableId : string) (event : DragEndEvent)
    (prev : ScheduleContext.SchedulesMap) : Result ScheduleContext.SchedulesMap :=
  match handleDragEnd tableId event with
  | Some u => commit u prev
  | None => Ok prev
  end.

End ScheduleDndProvider.

(** ** Catalog cache and lecture filter ([SearchDialog.tsx]) *)

Module SearchDialog.
Import JS Types.

(** A promise is identified by the position of the request that created it
    in the log of requests. *)
Definition Promise : Type := nat.

(** [{ promise, timestamp, data? }] *)
Record CacheEntry : Type := mkEntry {
  promise : Promise;
  timestamp : Q;
  data : option (list Lecture)
}.

(** What [getCache()] hands back: the map stored on [window], or a map made
    on the spot that nothing else refers to. *)
Inductive CacheRef : Type :=
| WindowCache
| FreshMap.

(** The part of the browser the fetch functions touch. *)
Record World : Type := mkWorld {
  lectureApiCache : option (gmap string CacheEntry);
  requests : list string;
  callbacks : list (Promise * CacheRef * string)
}.

(** Computations over the world. *)
Definition M (A : Type) : Type := World -> A * World.

#[global] Instance M_ret : MRet M := fun A a w => (a, w).
#[global] Instance M_bind : MBind M := fun A B k c w =>
  let '(a, w') := c w in k a w'.

Definition gets {A : Type} (f : World -> A) : M A := fun w => (f w, w).
Definition modify (f : World -> World) : M unit := fun w => (tt, f w).

(** Module initialisation: [if (!window.lectureApiCache) window.lectureApiCache = new Map()]. *)
Definition initCache (w : World) : World :=
  match lectureApiCache w with
  | Some _ => w
  | None => {| lectureApiCache := Some ∅;
               requests := requests w;
               callbacks := callbacks w |}
  end.

(** [window.lectureApiCache || new Map()] *)
Definition getCache : M CacheRef :=
  gets (fun w => match lectureApiCache w with
                 | Some _ => WindowCache
                 | None => FreshMap
                 end).

Definition cache_get (cache : CacheRef) (key : string) : M (option CacheEntry) :=
  gets (fun w => match cache with
                 | WindowCache => lectureApiCache w ≫= (.!! key)
                 | FreshMap => None
                 end).

Definition cache_set (cache : CacheRef) (key : string) (e : CacheEntry) : M unit :=
  modify (fun w => match cache with
                   | WindowCache =>
                       {| lectureApiCache := insert key e <$> lectureApiCache w;
                          requests := requests w;
                          callbacks := callbacks w |}
                   | FreshMap => w
                   end).

(** [axios.get(url)]: issues the request and returns its promise. *)
Definition axios_get (url : string) : M Promise :=
  fun w => (length (requests w),
            {| lectureApiCache := lectureApiCache w;
               requests := requests w ++ [url];
               callbacks := callbacks w |}).

(** [promise.then(data => { const entry = cache.get(cacheKey); if (entry) entry.data = data })] *)
Definition then_store (p : Promise) (cache : CacheRef) (key : string) : M unit :=
  modify (fun w => {| lectureApiCache := lectureApiCache w;
                      requests := requests w;
                      callbacks := callbacks w ++ [(p, cache, key)] |}).

(** [now] is the value of [performance.now()] at the call. *)
Definition fetchMajors (now : Q) : M Promise :=
  cache ← getCache;
  let cacheKey := "schedules-majors" in
  cached ← cache_get cache cacheKey;
  match cached with
  | Some entry => mret (promise entry)
  | None =>
      promise ← axios_get "/schedules-majors.json";
      _ ← cache_set cache cacheKey
            {| promise := promise; timestamp := now; data := None |};
      _ ← then_store promise cache cacheKey;
      mret promise
  end.

Definition fetchLiberalArts (now : Q) : M Promise :=
  cache ← getCache;
  let cacheKey := "schedules-liberal-arts" in
  cached ← cache_get cache cacheKey;
  match cached with
  | Some entry => mret (promise entry)
  | None =>
      promise ← axios_get "/schedules-liberal-arts.json";
      _ ← cache_set cache cacheKey
            {| promise := promise; timestamp := now; data := None |};
      _ ← then_store promise cache cacheKey;
      mret promise
  end.

(** Settling of promise [p] with [payload]: the callbacks registered on it
    run.  Only a callback that closed over the map on [window] has a
    visible effect. *)
Definition run_callback (payload : list Lecture)
    (cb : Promise * CacheRef * string) (w : World) : World :=
  match cb with
  | (_, WindowCache, key) =>
      {| lectureApiCache :=
           alter (fun entry => {| promise := promise entry;
                                  timestamp := timestamp entry;
                                  data := Some payload |}) key
             <$> lectureApiCache w;
         requests := requests w;
         callbacks := callbacks w |}
  | (_, FreshMap, _) => w
  end.

Definition resolve (p : Promise) (payload : list Lecture) (w : World) : World :=
  foldl (fun w cb => if Nat.eqb (fst (fst cb)) p then run_callback payload cb w else w)
        w (callbacks w).

(** The two named resources. *)
Inductive Resource : Type :=
| Majors
| LiberalArts.

Definition fetch (r : Resource) : Q -> M Promise :=
  match r with
  | Majors => fetchMajors
  | LiberalArts => fetchLiberalArts
  end.

Definition cacheKey (r : Resource) : string :=
  match r with
  | Majors => "schedules-majors"
  | LiberalArts => "schedules-liberal-arts"
  end.

Definition url (r : Resource) : string :=
  match r with
  | Majors => "/schedules-majors.json"
  | LiberalArts => "/schedules-liberal-arts.json"
  end.

(** What can happen to the world once the module is loaded. *)
Inductive Event : Type :=
| Call (r : Resource) (now : Q)
| Settle (p : Promise) (payload : list Lecture).

Definition step (e : Event) (w : World) : World :=
  match e with
  | Call r now => snd (fetch r now w)
  | Settle p payload => resolve p payload w
  end.

Definition steps (es : list Event) (w : World) : World :=
  foldl (fun w e => step e w) w es.

(** Number of requests issued for [u]. *)
Definition issued (u : string) (w : World) : nat :=
  length (List.filter (String.eqb u) (requests w)).

(** The promise the cache on [window] holds under [key], if any. *)
Definition promise_at (key : string) (w : World) : option Promise :=
  lectureApiCache w ≫= fun cache => promise <$> cache !! key.

(** The keys the cache on [window] holds. *)
Definition cached_keys (w : World) : option (gset string) :=
  dom <$> lectureApiCache w.

(** The log of requests agrees with the cache: a resource has been requested
    once if its key is cached, and never otherwise. *)
Definition coherent (w : World) : Prop :=
  exists keys : gset string,
    cached_keys w = Some keys /\
    forall r, issued (url r) w = if decide (cacheKey r ∈ keys) then 1%nat else 0%nat.

(** [SearchOption] *)
Record SearchOption : Type := mkSearchOption {
  query : option string;
  grades : list Z;
  days : list string;
  times : list Z;
  majors : list string;
  so_credits : option Z
}.

(** A session produced by [parseSchedule]. *)
Record Session : Type := mkSession {
  s_day : string;
  s_range : list Z;
  s_room : string
}.

(** [!credits]: the field is absent or zero. *)
Definition not_credits (c : option Z) : bool :=
  match c with
  | None => true
  | Some n => n =? 0
  end.

Section Filter.

(** [parseSchedule] of [utils.ts] and [String.prototype.toLowerCase]. *)
Variable parseSchedule : string -> list Session.
Variable toLowerCase : string -> string.

(** [lecture.schedule ? parseSchedule(lecture.schedule) : []] *)
Definition schedules_of (lecture : Lecture) : list Session :=
  if String.eqb (schedule lecture) "" then [] else parseSchedule (schedule lecture).

Definition matches_query (q : string) (lecture : Lecture) : bool :=
  includes (toLowerCase (title lecture)) (toLowerCase q)
  || includes (toLowerCase (id lecture)) (toLowerCase q).

Definition matches_grades (gs : list Z) (lecture : Lecture) : bool :=
  (length gs =? 0)%nat || includes_number gs (grade lecture).

Definition matches_majors (ms : list string) (lecture : Lecture) : bool :=
  (length ms =? 0)%nat || includes_string ms (major lecture).

Definition matches_credits (c : option Z) (lecture : Lecture) : bool :=
  not_credits c
  || match c with
     | Some n => startsWith (credits lecture) (String_of_number n)
     | None => false
     end.

Definition matches_days (ds : list string) (lecture : Lecture) : bool :=
  if (length ds =? 0)%nat then true
  else existsb (fun s => includes_string ds (s_day s)) (schedules_of lecture).

Definition matches_times (ts : list Z) (lecture : Lecture) : bool :=
  if (length ts =? 0)%nat then true
  else existsb (fun s => existsb (fun time => includes_number ts time) (s_range s))
               (schedules_of lecture).

Definition filteredLectures (lectures : list Lecture) (searchOptions : SearchOption)
    : list Lecture :=
  let query := default "" (query searchOptions) in
  let credits := so_credits searchOptions in
  let grades := grades searchOptions in
  let days := days searchOptions in
  let times := times searchOptions in
  let majors := majors searchOptions in
  List.filter (matches_times times)
    (List.filter (matches_days days)
      (List.filter (matches_credits credits)
        (List.filter (matches_majors majors)
          (List.filter (matches_grades grades)
            (List.filter (matches_query query) lectures))))).

(** The conjunction of the six predicates of the chain. *)
Definition passes (o : SearchOption) (lecture : Lecture) : bool :=
  matches_query (default "" (query o)) lecture
  && matches_grades (grades o) lecture
  && matches_majors (majors o) lecture
  && matches_credits (so_credits o) lecture
  && matches_days (days o) lecture
  && matches_times (times o) lecture.

End Filter.

End SearchDialog.

(** ** The table list and its buttons ([ScheduleTables.tsx]) *)

Module ScheduleTables.
Import JS Types ScheduleContext.

(** [Object.keys(schedulesMap).length === 1] *)
Definition disabledRemoveButton (schedulesMap : SchedulesMap) : bool :=
  (size schedulesMap =? 1)%nat.

(** What the user can do to a rendered table. *)
Inductive UserAction : Type :=
| PressDuplicate (tableId : string) (now : Z)
| PressRemove (tableId : string)
| PressDeleteSchedule (tableId : string) (day : string) (time : Z)
| PickLecture (tableId : string) (schedules : list Schedule)
| DropSchedule (tableId : string) (event : ScheduleDndProvider.DragEndEvent).

Definition table_of (a : UserAction) : string :=
  match a with
  | PressDuplicate t _ => t
  | PressRemove t => t
  | PressDeleteSchedule t _ _ => t
  | PickLecture t _ => t
  | DropSchedule t _ => t
  end.

(** The controls exist once per entry of [Object.entries(schedulesMap)], and
    the remove button carries [isDisabled={disabledRemoveButton}]. *)
Definition enabled (schedulesMap : SchedulesMap) (a : UserAction) : bool :=
  bool_decide (is_Some (schedulesMap !! table_of a))
  && match a with
     | PressRemove _ => negb (disabledRemoveButton schedulesMap)
     | _ => true
     end.

Definition perform (a : UserAction) (prev : SchedulesMap) : Result SchedulesMap :=
  match a with
  | PressDuplicate t now => duplicateTable t now prev
  | PressRemove t => Ok (removeTable t prev)
  | PressDeleteSchedule t d time => removeSchedule t d time prev
  | PickLecture t ss => addSchedule t ss prev
  | DropSchedule t ev => ScheduleDndProvider.drop t ev prev
  end.

(** States the interface can bring the store to, starting from [init]
    (the seed mapping [dummyScheduleMap]). *)
Inductive reachable (init : SchedulesMap) : SchedulesMap -> Prop :=
| reach_init : reachable init init
| reach_step (m m' : SchedulesMap) (a : UserAction) :
    reachable init m ->
    enabled m a = true ->
    perform a m = Ok m' ->
    reachable init m'.

End ScheduleTables.

(** ** Rounding as the specification words it *)

Module Reference.

(** Round to nearest, ties away from zero. *)
Definition round_half_away (q : Q) : Z :=
  if Qle_bool 0 q then Qfloor (q + (1 # 2)) else Qceiling (q - (1 # 2)).

End Reference.

(** ** Sample data *)

Module Samples.
Import Types.

Definition algorithms : Lecture :=
  {| id := "CS101"; title := "Algorithms"; credits := "3";
     major := "Computer Science"; schedule := "월1~2"; grade := 2 |}.

Definition seminar : Lecture :=
  {| id := "CS900"; title := "Seminar"; credits := "30";
     major := "Computer Science"; schedule := ""; grade := 4 |}.

Definition monday_slot : Schedule :=
  {| day := "월"; range := [1; 2]; room := "A101"; lecture := algorithms |}.

Definition friday_slot : Schedule :=
  {| day := "금"; range := [5; 6; 7]; room := "B202"; lecture := seminar |}.

Definition one_table : gmap string (list Schedule) :=
  {[ "schedule-1" := [monday_slot; friday_slot] ]}.

Definition two_tables : gmap string (list Schedule) :=
  <["schedule-2" := [friday_slot]]> one_table.

(** A query that sets only the credits field: [{ ..., credits: 3 }]. *)
Definition credits_3 : SearchDialog.SearchOption :=
  {| SearchDialog.query := Some "";
     SearchDialog.grades := [];
     SearchDialog.days := [];
     SearchDialog.times := [];
     SearchDialog.majors := [];
     SearchDialog.so_credits := Some 3 |}.

(** The grid's box, and the box of a one-slot entry on Tuesday, first slot. *)
Definition grid_container : ScheduleDndProvider.ClientRect :=
  {| ScheduleDndProvider.top := 0; ScheduleDndProvider.left := 0;
     ScheduleDndProvider.bottom := 760; ScheduleDndProvider.right := 600 |}.

Definition tuesday_cell : ScheduleDndProvider.ClientRect :=
  {| ScheduleDndProvider.top := 41; ScheduleDndProvider.left := 201;
     ScheduleDndProvider.bottom := 70; ScheduleDndProvider.right := 280 |}.

Definition pointer_at (px py : Q) : ScheduleDndProvider.Transform :=
  {| ScheduleDndProvider.x := px; ScheduleDndProvider.y := py;
     ScheduleDndProvider.scaleX := 1; ScheduleDndProvider.scaleY := 1 |}.

(** A container measured ten pixels short of the grid on both axes, and the
    box of a one-slot entry on Monday, first slot. *)
Definition short_container : ScheduleDndProvider.ClientRect :=
  {| ScheduleDndProvider.top := 0; ScheduleDndProvider.left := 0;
     ScheduleDndProvider.bottom := 750; ScheduleDndProvider.right := 590 |}.

Definition monday_cell : ScheduleDndProvider.ClientRect :=
  {| ScheduleDndProvider.top := 41; ScheduleDndProvider.left := 121;
     ScheduleDndProvider.bottom := 70; ScheduleDndProvider.right := 200 |}.

(** The offset the modifier reports when that entry is dragged far to the
    lower right, and the drop that ends the drag there. *)
Definition clamped_offset : ScheduleDndProvider.Transform :=
  ScheduleDndProvider.createSnapModifier (pointer_at 400 700)
    (Some short_container) (Some monday_cell).

Definition clamped_drop : ScheduleDndProvider.DragEndEvent :=
  {| ScheduleDndProvider.active_id := "schedule-1:0";
     ScheduleDndProvider.active_day := Some "월";
     ScheduleDndProvider.delta_x := ScheduleDndProvider.x clamped_offset;
     ScheduleDndProvider.delta_y := ScheduleDndProvider.y clamped_offset |}.

(** A drop after moving one column right and two rows down. *)
Definition aligned_drop : ScheduleDndProvider.DragEndEvent :=
  {| ScheduleDndProvider.active_id := "schedule-1:0";
     ScheduleDndProvider.active_day := Some "월";
     ScheduleDndProvider.delta_x := 80;
     ScheduleDndProvider.delta_y := 60 |}.

(** The browser right after the page is loaded. *)
Definition page_loaded : SearchDialog.World :=
  SearchDialog.initCache
    {| SearchDialog.lectureApiCache := None;
       SearchDialog.requests := [];
       SearchDialog.callbacks := [] |}.

End Samples.

(** ** [[...new Set(xs)]]: the distinct elements in order of first occurrence *)

Module JSSet.
Import JS.

(** Adding the elements of [xs] one by one to a set that holds [acc]. *)
Fixpoint add_all (acc xs : list string) : list string :=
  match xs with
  | [] => acc
  | x :: rest => add_all (if includes_string acc x then acc else acc ++ [x]) rest
  end.

Definition unique (xs : list string) : list string := add_all [] xs.

End JSSet.

(** ** The per-table provider ([TableScheduleContext.tsx]) *)

Module TableScheduleContext.
Import JS Types.

(** The provider's own state, and what it has handed to [onSchedulesChange]. *)
Record Provider : Type := mkProvider {
  schedules : list Schedule;
  reported : list (list Schedule)
}.

(** [useState(initialSchedules)] *)
Definition mount (initialSchedules : list Schedule) : Provider :=
  {| schedules := initialSchedules; reported := [] |}.

(** [setSchedules(newSchedules); onSchedulesChange(newSchedules)] *)
Definition notifyChange (newSchedules : list Schedule) (p : Provider) : Provider :=
  {| schedules := newSchedules; reported := reported p ++ [newSchedules] |}.

(** The actions of a context value close over [rendered], the list the
    provider held when that value was built. *)
Definition addSchedules (rendered : list Schedule) (newSchedules : list Schedule)
    : Provider -> Provider :=
  let updatedSchedules := rendered ++ newSchedules in
  notifyChange updatedSchedules.

Definition removeSchedule (rendered : list Schedule) (day : string) (time : Z)
    : Provider -> Provider :=
  let updatedSchedules :=
    List.filter (fun schedule =>
                   negb (String.eqb (Types.day schedule) day)
                   || negb (includes_number (range schedule) time))
                rendered in
  notifyChange updatedSchedules.

Definition updateSchedulePosition (rendered : list Schedule) (scheduleIndex : Z)
    (newDay : string) (timeOffset : Z) : Provider -> Provider :=
  let updatedSchedules :=
    imap (fun index schedule =>
            if negb (Z.of_nat index =? scheduleIndex) then schedule
            else {| day := newDay;
                    range := List.map (fun time => time + timeOffset) (range schedule);
                    room := room schedule;
                    lecture := lecture schedule |})
         rendered in
  notifyChange updatedSchedules.

(** An action taken from the value of the current render. *)
Definition act (action : list Schedule -> Provider -> Provider) (p : Provider) : Provider :=
  action (schedules p) p.

End TableScheduleContext.

(** ** One timetable ([ScheduleTable.tsx]) *)

Module ScheduleTable.
Import JS Types Constants.

Definition colors : list string := ["#fdd"; "#ffd"; "#dff"; "#ddf"; "#fdf"; "#dfd"].

(** [lectures.forEach((lectureId, index) => map.set(lectureId, colors[index % colors.length]))],
    from position [index] on. *)
Fixpoint set_colors (index : nat) (lectures : list string) (map : gmap string string)
    : gmap string string :=
  match lectures with
  | [] => map
  | lectureId :: rest =>
      set_colors (S index) rest
        (<[lectureId := nth (index mod length colors) colors ""]> map)
  end.

Definition colorMap (schedules : list Schedule) : gmap string string :=
  let lectures := JSSet.unique (List.map (fun s => id (lecture s)) schedules) in
  set_colors 0 lectures ∅.

(** [colorMap.get(lectureId) || "#fdd"] *)
Definition getColor (schedules : list Schedule) (lectureId : string) : string :=
  match colorMap schedules !! lectureId with
  | Some c => if String.eqb c "" then "#fdd" else c
  | None => "#fdd"
  end.

(** The box of a placed entry, in pixels relative to the table; [p_top] is
    [None] ([NaN]) for an entry with an empty range. *)
Record Position : Type := mkPosition {
  p_left : Q;
  p_top : option Q;
  p_width : Q;
  p_height : Q
}.

Definition position (day : string) (range : list Z) : Position :=
  let leftIndex := indexOf DAY_LABELS (Some day) in
  let topIndex := (fun first => first - 1) <$> head range in
  let size := Z.of_nat (length range) in
  {| p_left := (120 + CellSize.WIDTH * inject_Z leftIndex + 1)%Q;
     p_top := (fun topIndex => 40 + (inject_Z topIndex * CellSize.HEIGHT + 1))%Q <$> topIndex;
     p_width := (CellSize.WIDTH - 1)%Q;
     p_height := (CellSize.HEIGHT * inject_Z size - 1)%Q |}.

(** [TIMES.length]: eighteen half-hour slots and six evening slots. *)
Definition TIMES_length : Z := 18 + 6.

(** The grid's extent: [120px repeat(DAY_LABELS.length, WIDTH)] by
    [40px repeat(TIMES.length, HEIGHT)]. *)
Definition grid_width : Q :=
  (120 + inject_Z (Z.of_nat (length DAY_LABELS)) * CellSize.WIDTH)%Q.
Definition grid_height : Q :=
  (40 + inject_Z TIMES_length * CellSize.HEIGHT)%Q.

(** [onDeleteButtonClick?.({ day: schedule.day, time: schedule.range[0] })],
    wired in [ScheduleTables] to [removeSchedule(tableId, day, time)].  An
    entry with an empty range passes [undefined], which no range includes. *)
Definition deleteButtonClick (tableId : string) (schedule : Schedule)
    (prev : ScheduleContext.SchedulesMap) : Result ScheduleContext.SchedulesMap :=
  match head (range schedule) with
  | Some time => ScheduleContext.removeSchedule tableId (day schedule) time prev
  | None =>
      bind (get_iterable prev tableId) (fun current =>
      Ok (<[tableId := List.filter (fun _ => true) current]> prev))
  end.

End ScheduleTable.

(** ** The rest of the search dialog ([SearchDialog.tsx]) *)

Module SearchResults.
Import JS Types SearchDialog.

Definition PAGE_SIZE : Z := 100.

(** [Math.ceil(filteredLectures.length / PAGE_SIZE)] *)
Definition lastPage (filteredLectures : list Lecture) : Z :=
  Qceiling (inject_Z (Z.of_nat (length filteredLectures)) / inject_Z PAGE_SIZE).

(** [xs.slice(0, e)]: a negative end counts from the back. *)
Definition slice0 {A : Type} (xs : list A) (e : Z) : list A :=
  if e <? 0 then take (Z.to_nat (Z.of_nat (length xs) + e)) xs
  else take (Z.to_nat e) xs.

(** [filteredLectures.slice(0, page * PAGE_SIZE)] *)
Definition visibleLectures (filteredLectures : list Lecture) (page : Z) : list Lecture :=
  slice0 filteredLectures (page * PAGE_SIZE).

(** The observer's [setPage(prevPage => Math.min(lastPage, prevPage + 1))]. *)
Definition nextPage (lastPage prevPage : Z) : Z := Z.min lastPage (prevPage + 1).

(** [[...new Set(lectures.map(lecture => lecture.major))]] *)
Definition allMajors (lectures : list Lecture) : list string :=
  JSSet.unique (List.map major lectures).

Section Adding.
Variable parseSchedule : string -> list Session.

(** [parseSchedule(lecture.schedule).map(schedule => ({ ...schedule, lecture }))] *)
Definition lecture_schedules (lecture : Lecture) : list Schedule :=
  List.map (fun s => {| day := s_day s; range := s_range s; room := s_room s;
                        lecture := lecture |})
           (parseSchedule (schedule lecture)).

(** The dialog's [addSchedule(lecture)], up to closing the dialog. *)
Definition addSchedule (tableId : string) (lecture : Lecture)
    : ScheduleContext.SchedulesMap -> Result ScheduleContext.SchedulesMap :=
  ScheduleContext.addSchedule tableId (lecture_schedules lecture).

End Adding.

Section Loading.
(** What the server answers to a request for a URL. *)
Variable server : string -> list Lecture.

(** [await p]: the promise of request number [p] settles with the server's
    answer and the callbacks registered on it run.  For a promise that has
    settled before, the callbacks store the same answer again. *)
Definition await (p : Promise) : M (list Lecture) :=
  fun w =>
    let payload := server (nth p (requests w) "") in
    (payload, resolve p payload w).

(** [fetchAllLectures]: six calls, each awaited before the next is made.
    [nows] are the clock readings the calls see. *)
Definition fetchAllLectures (now1 now2 now3 now4 now5 now6 : Q)
    : M (list (list Lecture)) :=
  r1 ← (fetchMajors now1 ≫= await);
  r2 ← (fetchLiberalArts now2 ≫= await);
  r3 ← (fetchMajors now3 ≫= await);
  r4 ← (fetchLiberalArts now4 ≫= await);
  r5 ← (fetchMajors now5 ≫= await);
  r6 ← (fetchLiberalArts now6 ≫= await);
  mret [r1; r2; r3; r4; r5; r6].

(** [results.flatMap(result => result.data)], the list given to [setLectures]. *)
Definition loaded_lectures (results : list (list Lecture)) : list Lecture :=
  concat results.

End Loading.

End SearchResults.

(** ** Well-formed entries *)

Module Invariants.
Import JS Types ScheduleContext.

(** Each slot of the range is the one after its predecessor. *)
Fixpoint contiguous (r : list Z) : bool :=
  match r with
  | a :: (b :: _) as rest => (b =? a + 1) && contiguous rest
  | _ => true
  end.

Definition entry_ok (e : Schedule) : bool :=
  negb (length (range e) =? 0)%nat && contiguous (range e).

Definition store_ok (m : SchedulesMap) : Prop :=
  forall t l, m !! t = Some l -> forallb entry_ok l = true.

(** The entries an action brings in. *)
Definition brings_ok (op : WriteOp) : bool :=
  match op with
  | AddSchedule _ ss => forallb entry_ok ss
  | _ => true
  end.

End Invariants.

(** * Properties of the store *)

Module StoreFacts.
Import JS Types ScheduleContext.

Lemma get_iterable_Some {V : Type} (obj : gmap string V) key v :
  obj !! key = Some v -> get_iterable obj key = Ok v.
Proof. intros H. unfold get_iterable. now rewrite H. Qed.

Lemma get_iterable_None {V : Type} (obj : gmap string V) key :
  obj !! key = None -> get_iterable obj key = Throw TypeError.
Proof. intros H. unfold get_iterable. now rewrite H. Qed.

Lemma bind_Ok_inv {A B : Type} (r : Result A) (k : A -> Result B) b :
  bind r k = Ok b -> exists a, r = Ok a /\ k a = Ok b.
Proof. destruct r as [a|e]; simpl; [eauto | discriminate]. Qed.

Lemma get_iterable_Ok_inv {V : Type} (obj : gmap string V) key v :
  get_iterable obj key = Ok v -> obj !! key = Some v.
Proof. unfold get_iterable. destruct (obj !! key); congruence. Qed.

(** Every action assigns or deletes one key and leaves the others alone. *)
Lemma run_frame (op : WriteOp) (m m' : SchedulesMap) (k : string) :
  run op m = Ok m' -> k <> written_key op -> m' !! k = m !! k.
Proof.
  intros Hrun Hk.
  destruct op as [t ss | t d time | t now | t | t i d off]; simpl in *;
    try (apply bind_Ok_inv in Hrun as (cur & _ & Hrun));
    injection Hrun as <-;
    unfold removeTable;
    first [ apply lookup_insert_ne | apply lookup_delete_ne ]; congruence.
Qed.

Lemma run_all_frame (ops : list WriteOp) (m m' : SchedulesMap) (k : string) :
  run_all ops m = Ok m' ->
  Forall (fun op => written_key op <> k) ops ->
  m' !! k = m !! k.
Proof.
  revert m. induction ops as [|op ops IH]; intros m Hrun Hall; simpl in Hrun.
  - now injection Hrun as <-.
  - apply bind_Ok_inv in Hrun as (m1 & Hop & Hrest).
    inversion Hall as [|? ? Hne Hall']; subst.
    rewrite (IH m1 Hrest Hall'). eapply run_frame; [exact Hop | congruence].
Qed.

(** No action but [removeTable] can empty the mapping. *)
Lemma size_insert_pos (m : SchedulesMap) k v : (1 <= size (<[k := v]> m))%nat.
Proof.
  destruct (size (<[k := v]> m)) eqn:E; [|lia].
  apply map_size_empty_inv in E. now apply insert_non_empty in E.
Qed.

Lemma reposition_other i newDay off (j : nat) (s : Schedule) :
  Z.of_nat j <> i -> reposition i newDay off j s = s.
Proof.
  intros Hne. unfold reposition.
  destruct (Z.eqb_spec (Z.of_nat j) i); [contradiction | reflexivity].
Qed.

Lemma reposition_at i newDay off (j : nat) (s : Schedule) :
  Z.of_nat j = i ->
  reposition i newDay off j s =
  {| day := newDay; range := List.map (fun time => time + off) (range s);
     room := room s; lecture := lecture s |}.
Proof.
  intros He. unfold reposition.
  destruct (Z.eqb_spec (Z.of_nat j) i); [reflexivity | contradiction].
Qed.

Lemma imap_lookup_id {A : Type} (f : nat -> A -> A) (l : list A) :
  (forall j a, l !! j = Some a -> f j a = a) -> imap f l = l.
Proof.
  intros Hf. apply list_eq. intros j. rewrite list_lookup_imap.
  destruct (l !! j) as [a|] eqn:E; simpl; [f_equal; eauto | reflexivity].
Qed.

Lemma updateSchedulePosition_Ok tableId i newDay off (m : SchedulesMap) l :
  m !! tableId = Some l ->
  updateSchedulePosition tableId i newDay off m =
  Ok (<[tableId := imap (reposition i newDay off) l]> m).
Proof.
  intros H. unfold updateSchedulePosition.
  now rewrite (get_iterable_Some _ _ _ H).
Qed.

Lemma map_add_sub (off : Z) (r : list Z) :
  List.map (fun time => time + - off) (List.map (fun time => time + off) r) = r.
Proof.
  induction r as [|t r IH]; simpl; [reflexivity|].
  rewrite IH. f_equal. lia.
Qed.

Lemma reposition_round_trip i newDay off (j : nat) (s : Schedule) (oldDay : string) :
  (Z.of_nat j = i -> day s = oldDay) ->
  reposition i oldDay (- off) j (reposition i newDay off j s) = s.
Proof.
  intros Hday. unfold reposition.
  destruct (Z.eqb_spec (Z.of_nat j) i) as [He|Hne]; simpl; [|reflexivity].
  rewrite map_add_sub. rewrite <- (Hday He). now destruct s.
Qed.

Lemma duplicateTable_Ok tableId now (m : SchedulesMap) l :
  m !! tableId = Some l ->
  duplicateTable tableId now m = Ok (<[newTableId now := l]> m).
Proof.
  intros H. unfold duplicateTable. now rewrite (get_iterable_Some _ _ _ H).
Qed.

End StoreFacts.

(** ** Removing tables: the store and the remove button *)

Module TableRemoval.
Import JS Types ScheduleContext ScheduleTables StoreFacts.

Lemma removeTable_sole (m : SchedulesMap) tableId :
  size m = 1%nat -> is_Some (m !! tableId) -> removeTable tableId m = ∅.
Proof.
  intros Hsize Hin. apply map_size_empty_inv. unfold removeTable.
  rewrite map_size_delete_Some by assumption. now rewrite Hsize.
Qed.

Lemma disabledRemoveButton_iff (m : SchedulesMap) :
  disabledRemoveButton m = true <-> size m = 1%nat.
Proof. unfold disabledRemoveButton. apply Nat.eqb_eq. Qed.

Lemma drop_nonempty tableId ev (m m' : SchedulesMap) :
  ScheduleDndProvider.drop tableId ev m = Ok m' ->
  (1 <= size m)%nat -> (1 <= size m')%nat.
Proof.
  unfold ScheduleDndProvider.drop, ScheduleDndProvider.commit.
  destruct (ScheduleDndProvider.handleDragEnd tableId ev) as [u|].
  - intros H _. apply bind_Ok_inv in H as (cur & _ & H).
    injection H as <-. apply size_insert_pos.
  - now intros [= <-].
Qed.

Lemma perform_nonempty (a : UserAction) (m m' : SchedulesMap) :
  enabled m a = true -> perform a m = Ok m' ->
  (1 <= size m)%nat -> (1 <= size m')%nat.
Proof.
  intros Hen Hper Hsize. unfold enabled in Hen.
  apply andb_true_iff in Hen as [Hin Hbtn]. apply bool_decide_eq_true in Hin.
  destruct a as [t now | t | t d time | t ss | t ev]; simpl in *.
  - apply bind_Ok_inv in Hper as (cur & _ & [= <-]). apply size_insert_pos.
  - injection Hper as <-. unfold removeTable.
    rewrite map_size_delete_Some by assumption.
    apply negb_true_iff in Hbtn. unfold disabledRemoveButton in Hbtn.
    apply Nat.eqb_neq in Hbtn. lia.
  - apply bind_Ok_inv in Hper as (cur & _ & [= <-]). apply size_insert_pos.
  - apply bind_Ok_inv in Hper as (cur & _ & [= <-]). apply size_insert_pos.
  - eapply drop_nonempty; eassumption.
Qed.

Lemma reachable_nonempty (init m : SchedulesMap) :
  (1 <= size init)%nat -> reachable init m -> (1 <= size m)%nat.
Proof.
  intros Hinit Hreach. induction Hreach as [|m m' a _ IH Hen Hper].
  - exact Hinit.
  - eapply perform_nonempty; eassumption.
Qed.

(** C1, as stated, fails: on a mapping with exactly one table, [removeTable]
    of that table is carried out, and the mapping it publishes has no table
    left. *)
Lemma removeTable_last_table_is_deleted :
  size Samples.one_table = 1%nat /\
  is_Some (Samples.one_table !! "schedule-1") /\
  removeTable "schedule-1" Samples.one_table <> Samples.one_table /\
  size (removeTable "schedule-1" Samples.one_table) = 0%nat.
Proof.
  assert (Hsize : size Samples.one_table = 1%nat) by apply map_size_singleton.
  assert (Hin : is_Some (Samples.one_table !! "schedule-1")).
  { unfold Samples.one_table. rewrite lookup_singleton_eq. eauto. }
  assert (Hempty := removeTable_sole _ _ Hsize Hin).
  split; [exact Hsize|]. split; [exact Hin|]. split.
  - rewrite Hempty. intros Heq. rewrite <- Heq in Hsize.
    now rewrite map_size_empty in Hsize.
  - rewrite Hempty. apply map_size_empty.
Qed.

(** C1 (amended): [removeTable] itself deletes the key unconditionally, so on
    a one-table mapping it publishes the empty mapping.  The last table is
    protected by the table list, whose remove button is disabled exactly when
    the mapping has one key: every state the interface reaches from a seed
    mapping with at least one table has at least one table. *)
Theorem last_table_guarded_by_remove_button
    (init m : SchedulesMap) (tableId : string) :
  (1 <= size init)%nat ->
  reachable init m ->
  (1 <= size m)%nat /\
  removeTable tableId m = delete tableId m /\
  (disabledRemoveButton m = true <-> size m = 1%nat) /\
  (size m = 1%nat -> enabled m (PressRemove tableId) = false) /\
  (size m = 1%nat -> is_Some (m !! tableId) -> removeTable tableId m = ∅).
Proof.
  intros Hinit Hreach. split; [eapply reachable_nonempty; eassumption|].
  split; [reflexivity|]. split; [apply disabledRemoveButton_iff|]. split.
  - intros Hsize. unfold enabled. apply andb_false_iff. right. simpl.
    apply negb_false_iff. now apply disabledRemoveButton_iff.
  - apply removeTable_sole.
Qed.

Lemma last_table_guarded_by_remove_button_witness :
  (1 <= size Samples.two_tables)%nat /\
  reachable Samples.two_tables (removeTable "schedule-2" Samples.two_tables) /\
  (1 <= size (removeTable "schedule-2" Samples.two_tables))%nat.
Proof.
  assert (Hsize : (1 <= size Samples.two_tables)%nat) by apply size_insert_pos.
  assert (Hreach : reachable Samples.two_tables
                     (removeTable "schedule-2" Samples.two_tables)).
  { eapply reach_step with (a := PressRemove "schedule-2");
      [apply reach_init | vm_compute; reflexivity | reflexivity]. }
  split; [exact Hsize|]. split; [exact Hreach|].
  exact (proj1 (last_table_guarded_by_remove_button
                  Samples.two_tables _ "schedule-1" Hsize Hreach)).
Defined.

End TableRemoval.

(** ** Position updates *)

Module PositionUpdates.
Import JS Types ScheduleContext StoreFacts.

Lemma imap_round_trip i newDay off (l : list Schedule) (e : Schedule) :
  0 <= i -> l !! Z.to_nat i = Some e ->
  imap (reposition i (day e) (- off)) (imap (reposition i newDay off) l) = l.
Proof.
  intros Hi He. apply list_eq. intros j. rewrite !list_lookup_imap.
  destruct (l !! j) as [a|] eqn:Ej; simpl; [|reflexivity].
  f_equal. apply reposition_round_trip. intros Hj.
  assert (j = Z.to_nat i) as -> by lia. congruence.
Qed.

(** C4, as stated, fails: with an index past the end of the table's list the
    updater returns normally, and what it returns is the mapping it was
    given. *)
Lemma update_out_of_bounds_is_silent :
  Samples.one_table !! "schedule-1" = Some [Samples.monday_slot; Samples.friday_slot] /\
  5 >= Z.of_nat (length [Samples.monday_slot; Samples.friday_slot]) /\
  updateSchedulePosition "schedule-1" 5 "화" 1 Samples.one_table = Ok Samples.one_table /\
  is_Ok (updateSchedulePosition "schedule-1" 5 "화" 1 Samples.one_table) = true.
Proof.
  split; [apply lookup_singleton_eq|]. split; [simpl; lia|].
  split; vm_compute; reflexivity.
Qed.

(** C4 (amended): for a table present in the store and an index outside
    [0, length), [updateSchedulePosition] is a silent no-op: it reports
    no error and publishes a mapping equal to the one before. *)
Theorem update_out_of_bounds_noop
    (m : SchedulesMap) (tableId : string) (l : list Schedule)
    (entryIndex : Z) (newDay : string) (timeOffset : Z) :
  m !! tableId = Some l ->
  (entryIndex < 0 \/ Z.of_nat (length l) <= entryIndex) ->
  updateSchedulePosition tableId entryIndex newDay timeOffset m = Ok m.
Proof.
  intros Hm Hout. rewrite (updateSchedulePosition_Ok _ _ _ _ _ _ Hm).
  f_equal. rewrite imap_lookup_id.
  - now apply insert_id.
  - intros j e Hj. apply reposition_other.
    apply lookup_lt_Some in Hj. lia.
Qed.

Lemma update_out_of_bounds_noop_witness :
  updateSchedulePosition "schedule-1" (-1) "수" 3 Samples.one_table
  = Ok Samples.one_table.
Proof.
  apply (update_out_of_bounds_noop Samples.one_table "schedule-1"
           [Samples.monday_slot; Samples.friday_slot] (-1) "수" 3).
  - apply lookup_singleton_eq.
  - left. lia.
Defined.

(** C7: moving the entry at an in-bounds index to [newDay] by [timeOffset]
    and then back to the day it had by [- timeOffset] gives back the
    original entry (and with it the original mapping). *)
Theorem update_then_revert_restores_entry
    (m : SchedulesMap) (tableId : string) (l : list Schedule)
    (entryIndex : Z) (e : Schedule) (newDay : string) (timeOffset : Z) :
  m !! tableId = Some l ->
  0 <= entryIndex ->
  l !! Z.to_nat entryIndex = Some e ->
  exists m1 m2,
    updateSchedulePosition tableId entryIndex newDay timeOffset m = Ok m1 /\
    updateSchedulePosition tableId entryIndex (day e) (- timeOffset) m1 = Ok m2 /\
    (m2 !! tableId ≫= (.!! Z.to_nat entryIndex)) = Some e /\
    m2 = m.
Proof.
  intros Hm Hi He.
  pose (l1 := imap (reposition entryIndex newDay timeOffset) l).
  exists (<[tableId := l1]> m), m.
  split; [now apply updateSchedulePosition_Ok|].
  assert (Hback : updateSchedulePosition tableId entryIndex (day e) (- timeOffset)
                    (<[tableId := l1]> m) = Ok m).
  { rewrite (updateSchedulePosition_Ok _ _ _ _ _ l1) by apply lookup_insert_eq.
    unfold l1. rewrite (imap_round_trip _ _ _ _ e Hi He).
    rewrite insert_insert_eq. f_equal. now apply insert_id. }
  split; [exact Hback|]. split; [|reflexivity].
  rewrite Hm. simpl. exact He.
Qed.

Lemma update_then_revert_restores_entry_witness :
  exists m1 m2,
    updateSchedulePosition "schedule-1" 1 "화" 4 Samples.one_table = Ok m1 /\
    updateSchedulePosition "schedule-1" 1 (day Samples.friday_slot) (- 4) m1 = Ok m2 /\
    (m2 !! "schedule-1" ≫= (.!! Z.to_nat 1)) = Some Samples.friday_slot /\
    m2 = Samples.one_table.
Proof.
  apply (update_then_revert_restores_entry Samples.one_table "schedule-1"
           [Samples.monday_slot; Samples.friday_slot] 1 Samples.friday_slot "화" 4).
  - apply lookup_singleton_eq.
  - lia.
  - reflexivity.
Defined.

(** C10: an in-bounds position update rewrites the [day] and [range] of the
    entry at the index and nothing else: that entry keeps its [room] and
    [lecture], every other entry of the table is the same, the list keeps
    its length and order, and every other table of the mapping is the same. *)
Theorem update_changes_only_day_and_range
    (m : SchedulesMap) (tableId : string) (l : list Schedule)
    (entryIndex : Z) (newDay : string) (timeOffset : Z) :
  m !! tableId = Some l ->
  0 <= entryIndex < Z.of_nat (length l) ->
  exists m1 l1,
    updateSchedulePosition tableId entryIndex newDay timeOffset m = Ok m1 /\
    m1 !! tableId = Some l1 /\
    length l1 = length l /\
    (forall (j : nat) (e : Schedule), l !! j = Some e ->
       exists e1, l1 !! j = Some e1 /\
         room e1 = room e /\ lecture e1 = lecture e /\
         (Z.of_nat j <> entryIndex -> e1 = e) /\
         (Z.of_nat j = entryIndex ->
            day e1 = newDay /\
            range e1 = List.map (fun time => time + timeOffset) (range e))) /\
    (forall t, t <> tableId -> m1 !! t = m !! t) /\
    dom m1 = dom m.
Proof.
  intros Hm Hi.
  exists (<[tableId := imap (reposition entryIndex newDay timeOffset) l]> m),
         (imap (reposition entryIndex newDay timeOffset) l).
  split; [now apply updateSchedulePosition_Ok|].
  split; [apply lookup_insert_eq|].
  split; [apply length_imap|].
  split; [|split].
  - intros j e Hj. exists (reposition entryIndex newDay timeOffset j e).
    split; [rewrite list_lookup_imap, Hj; reflexivity|].
    destruct (Z.eq_dec (Z.of_nat j) entryIndex) as [Heq|Hne].
    + rewrite (reposition_at _ _ _ _ _ Heq). simpl.
      split; [reflexivity|]. split; [reflexivity|].
      split; [intros Hne; contradiction | intros _; split; reflexivity].
    + rewrite (reposition_other _ _ _ _ _ Hne).
      split; [reflexivity|]. split; [reflexivity|].
      split; [reflexivity | intros Heq; contradiction].
  - intros t Ht. apply lookup_insert_ne. congruence.
  - apply dom_insert_lookup_L. rewrite Hm. eauto.
Qed.

Lemma update_changes_only_day_and_range_witness :
  exists m1 l1,
    updateSchedulePosition "schedule-1" 0 "목" 2 Samples.one_table = Ok m1 /\
    m1 !! "schedule-1" = Some l1 /\
    length l1 = 2%nat /\
    l1 !! 1%nat = Some Samples.friday_slot.
Proof.
  destruct (update_changes_only_day_and_range Samples.one_table "schedule-1"
              [Samples.monday_slot; Samples.friday_slot] 0 "목" 2)
    as (m1 & l1 & Hrun & Hl1 & Hlen & Hentries & _).
  - apply lookup_singleton_eq.
  - simpl. lia.
  - exists m1, l1. split; [exact Hrun|]. split; [exact Hl1|].
    split; [exact Hlen|].
    destruct (Hentries 1%nat Samples.friday_slot eq_refl)
      as (e1 & He1 & _ & _ & Hsame & _).
    rewrite He1. f_equal. apply Hsame. lia.
Defined.

End PositionUpdates.

(** ** Adding entries and duplicating tables *)

Module TableWrites.
Import JS Types ScheduleContext StoreFacts.

(** C5, as stated, fails: for a key the mapping does not have, the updater
    of [addSchedule] throws instead of returning the mapping unchanged. *)
Lemma addSchedule_unknown_table_throws :
  Samples.one_table !! "schedule-9" = None /\
  addSchedule "schedule-9" [Samples.monday_slot] Samples.one_table = Throw TypeError /\
  addSchedule "schedule-9" [Samples.monday_slot] Samples.one_table <> Ok Samples.one_table.
Proof.
  assert (H : addSchedule "schedule-9" [Samples.monday_slot] Samples.one_table
              = Throw TypeError) by (vm_compute; reflexivity).
  split; [apply lookup_singleton_ne; discriminate|].
  rewrite H. split; [reflexivity | discriminate].
Qed.

(** C5 (amended): for a [tableId] the mapping does not have, [addSchedule]
    is not a no-op: spreading the missing entry list throws a [TypeError]
    inside the updater, so no mapping is published by the call. *)
Theorem addSchedule_unknown_table_TypeError
    (m : SchedulesMap) (tableId : string) (entries : list Schedule) :
  m !! tableId = None ->
  addSchedule tableId entries m = Throw TypeError.
Proof.
  intros Hm. unfold addSchedule.
  rewrite (get_iterable_None _ _ Hm). reflexivity.
Qed.

Lemma addSchedule_unknown_table_TypeError_witness :
  addSchedule "schedule-2" [Samples.friday_slot] Samples.one_table = Throw TypeError.
Proof.
  apply (addSchedule_unknown_table_TypeError Samples.one_table "schedule-2"
           [Samples.friday_slot]).
  apply lookup_singleton_ne. discriminate.
Defined.

Lemma newTableId_sample : newTableId 1700000000000 = "schedule-1700000000000".
Proof. vm_compute. reflexivity. Qed.

(** C6, as stated, fails: the new id is the clock reading, so duplicating
    twice within one millisecond generates an id the mapping already has;
    the second duplication then adds no table. *)
Lemma duplicateTable_same_millisecond_adds_nothing :
  exists m m1,
    duplicateTable "schedule-1" 1700000000000 Samples.one_table = Ok m /\
    m !! "schedule-1" = Some [Samples.monday_slot; Samples.friday_slot] /\
    is_Some (m !! newTableId 1700000000000) /\
    duplicateTable "schedule-1" 1700000000000 m = Ok m1 /\
    size m1 = size m.
Proof.
  pose (l := [Samples.monday_slot; Samples.friday_slot]).
  assert (H : Samples.one_table !! "schedule-1" = Some l)
    by apply lookup_singleton_eq.
  exists (<[newTableId 1700000000000 := l]> Samples.one_table),
         (<[newTableId 1700000000000 := l]>
            (<[newTableId 1700000000000 := l]> Samples.one_table)).
  assert (H1 : <[newTableId 1700000000000 := l]> Samples.one_table !! "schedule-1"
               = Some l).
  { rewrite lookup_insert_ne; [exact H|]. rewrite newTableId_sample. discriminate. }
  split; [now apply duplicateTable_Ok|]. split; [exact H1|].
  split; [rewrite lookup_insert_eq; eauto|].
  split; [now apply duplicateTable_Ok|].
  apply map_size_insert_Some. rewrite lookup_insert_eq. eauto.
Qed.

(** An action invoked on one table that does not generate the id of
    another assigns a key other than that one. *)
Lemma invoked_elsewhere (op : WriteOp) (a b : string) :
  a <> b -> invoked_on op = a -> generates b op = false -> written_key op <> b.
Proof.
  intros Hab Hon Hgen.
  destruct op as [t ss | t d time | t now' | t | t i d off];
    cbn [invoked_on generates written_key] in *; try congruence.
  now apply String.eqb_neq in Hgen.
Qed.

(** C6: the proviso on later duplications is needed.  After a duplication
    under a fresh id, adding an entry to the source and duplicating the
    source again at the same clock reading are two writes invoked on the
    source, and the second replaces the copy's entries. *)
Lemma duplicate_again_same_clock_overwrites_copy :
  exists m m' m'',
    duplicateTable "schedule-1" 1700000000000 Samples.one_table = Ok m /\
    run_all [AddSchedule "schedule-1" [Samples.friday_slot];
             DuplicateTable "schedule-1" 1700000000000] m = Ok m'' /\
    addSchedule "schedule-1" [Samples.friday_slot] m = Ok m' /\
    m !! newTableId 1700000000000
    = Some [Samples.monday_slot; Samples.friday_slot] /\
    m'' !! newTableId 1700000000000
    = Some [Samples.monday_slot; Samples.friday_slot; Samples.friday_slot].
Proof.
  pose (l := [Samples.monday_slot; Samples.friday_slot]).
  assert (Hne : newTableId 1700000000000 <> "schedule-1")
    by (rewrite newTableId_sample; discriminate).
  assert (H : Samples.one_table !! "schedule-1" = Some l)
    by apply lookup_singleton_eq.
  pose (m := <[newTableId 1700000000000 := l]> Samples.one_table).
  assert (Hm : m !! "schedule-1" = Some l)
    by (unfold m; rewrite lookup_insert_ne; [exact H | exact Hne]).
  pose (m' := <["schedule-1" := l ++ [Samples.friday_slot]]> m).
  assert (Hadd : addSchedule "schedule-1" [Samples.friday_slot] m = Ok m').
  { unfold addSchedule. now rewrite (get_iterable_Some _ _ _ Hm). }
  exists m, m', (<[newTableId 1700000000000 := l ++ [Samples.friday_slot]]> m').
  split; [now apply duplicateTable_Ok|]. split.
  - cbn [run_all run]. rewrite Hadd. cbn [bind].
    rewrite (duplicateTable_Ok _ _ m' (l ++ [Samples.friday_slot]))
      by apply lookup_insert_eq.
    reflexivity.
  - split; [exact Hadd|]. split; [apply lookup_insert_eq|].
    rewrite lookup_insert_eq. reflexivity.
Qed.

(** C6 (amended): for a source table present in the store, and provided the
    generated id [schedule-<clock>] is not yet a key of the mapping,
    [duplicateTable] adds one table under that id whose entry list equals
    the source's, and leaves every other table as it was.  The two ids
    differ, and afterwards any sequence of writes invoked on one of the two
    tables ([addSchedule], [removeSchedule], [updateSchedulePosition],
    [removeTable] or [duplicateTable] with that table's id) leaves the
    entries of the other as they were, provided no duplication among them
    generates the other table's id again. *)
Theorem duplicateTable_fresh_id_copies_and_isolates
    (m : SchedulesMap) (sourceTableId : string) (l : list Schedule) (now : Z) :
  m !! sourceTableId = Some l ->
  m !! newTableId now = None ->
  exists m1,
    duplicateTable sourceTableId now m = Ok m1 /\
    size m1 = S (size m) /\
    m1 !! newTableId now = Some l /\
    (forall t, t <> newTableId now -> m1 !! t = m !! t) /\
    sourceTableId <> newTableId now /\
    (forall ops m2,
        Forall (fun op => invoked_on op = sourceTableId
                          /\ generates (newTableId now) op = false) ops ->
        run_all ops m1 = Ok m2 -> m2 !! newTableId now = Some l) /\
    (forall ops m2,
        Forall (fun op => invoked_on op = newTableId now
                          /\ generates sourceTableId op = false) ops ->
        run_all ops m1 = Ok m2 -> m2 !! sourceTableId = Some l) /\
    (forall ops m2 k,
        Forall (fun op => written_key op <> k) ops ->
        run_all ops m1 = Ok m2 -> m2 !! k = m1 !! k).
Proof.
  intros Hsrc Hfresh.
  assert (Hne : sourceTableId <> newTableId now) by congruence.
  exists (<[newTableId now := l]> m).
  split; [now apply duplicateTable_Ok|].
  split; [now apply map_size_insert_None|].
  split; [apply lookup_insert_eq|].
  split; [intros t Ht; apply lookup_insert_ne; congruence|].
  split; [exact Hne|].
  split; [|split].
  - intros ops m2 Hall Hrun.
    rewrite (run_all_frame ops _ m2 (newTableId now) Hrun).
    + apply lookup_insert_eq.
    + eapply Forall_impl; [exact Hall|]. simpl. intros op [Hon Hgen].
      now apply (invoked_elsewhere op sourceTableId (newTableId now)).
  - intros ops m2 Hall Hrun.
    rewrite (run_all_frame ops _ m2 sourceTableId Hrun).
    + rewrite lookup_insert_ne; [exact Hsrc | congruence].
    + eapply Forall_impl; [exact Hall|]. simpl. intros op [Hon Hgen].
      apply (invoked_elsewhere op (newTableId now) sourceTableId);
        [congruence | exact Hon | exact Hgen].
  - intros ops m2 k Hall Hrun. exact (run_all_frame ops _ m2 k Hrun Hall).
Qed.

Lemma duplicateTable_fresh_id_copies_and_isolates_witness :
  exists m1,
    duplicateTable "schedule-1" 1700000000000 Samples.one_table = Ok m1 /\
    size m1 = S (size Samples.one_table) /\
    m1 !! newTableId 1700000000000
      = Some [Samples.monday_slot; Samples.friday_slot].
Proof.
  destruct (duplicateTable_fresh_id_copies_and_isolates Samples.one_table
              "schedule-1" [Samples.monday_slot; Samples.friday_slot]
              1700000000000)
    as (m1 & Hrun & Hsize & Hnew & _).
  - apply lookup_singleton_eq.
  - apply lookup_singleton_ne. rewrite newTableId_sample. discriminate.
  - exists m1. split; [exact Hrun|]. split; [exact Hsize | exact Hnew].
Defined.

End TableWrites.

(** ** The lecture filter *)

Module FilterFacts.
Import JS Types SearchDialog.

Lemma filter_filter_andb {A : Type} (f g : A -> bool) (l : list A) :
  List.filter g (List.filter f l) = List.filter (fun a => f a && g a) l.
Proof.
  induction l as [|a l IH]; simpl; [reflexivity|].
  destruct (f a); simpl; [destruct (g a)|]; now rewrite IH.
Qed.

Lemma includes_empty (s : string) : includes s "" = true.
Proof. destruct s; reflexivity. Qed.

Section WithParser.
Variable parseSchedule : string -> list Session.
Variable toLowerCase : string -> string.

Lemma filteredLectures_one_pass (lectures : list Lecture) (o : SearchOption) :
  filteredLectures parseSchedule toLowerCase lectures o
  = List.filter (passes parseSchedule toLowerCase o) lectures.
Proof.
  unfold filteredLectures, passes. rewrite !filter_filter_andb.
  apply filter_ext. intros lecture. now rewrite !andb_assoc.
Qed.

Lemma matches_credits_set (c : Z) (lecture : Lecture) :
  c <> 0 ->
  matches_credits (Some c) lecture
  = startsWith (credits lecture) (String_of_number c).
Proof.
  intros Hc. unfold matches_credits, not_credits.
  destruct (Z.eqb_spec c 0); [contradiction | reflexivity].
Qed.

End WithParser.

(** C8, as stated, fails: with the credits field set to 3 and no other
    filter active, a lecture whose credits text is "30" is kept, though
    its credit value is not 3. *)
Lemma credits_filter_keeps_other_credit_values :
  (forall parseSchedule toLowerCase,
      toLowerCase "" = "" ->
      filteredLectures parseSchedule toLowerCase
        [Samples.algorithms; Samples.seminar] Samples.credits_3
      = [Samples.algorithms; Samples.seminar]) /\
  so_credits Samples.credits_3 = Some 3 /\
  credits Samples.seminar <> String_of_number 3.
Proof.
  split; [|split; [reflexivity | vm_compute; discriminate]].
  intros parseSchedule toLowerCase Hlower.
  rewrite filteredLectures_one_pass. unfold passes, matches_query. simpl.
  rewrite Hlower, !includes_empty. reflexivity.
Qed.

(** C8 (amended): when the query's credits field is set to a non-zero number,
    the pipeline keeps, in catalog order, exactly the lectures whose credits
    text starts with the decimal text of that number (a prefix match, not
    equality) and that pass every other filter dimension. *)
Theorem credits_filter_is_prefix_match
    (parseSchedule : string -> list Session) (toLowerCase : string -> string)
    (lectures : list Lecture) (o : SearchOption) (c : Z) :
  so_credits o = Some c ->
  c <> 0 ->
  filteredLectures parseSchedule toLowerCase lectures o
  = List.filter (fun lecture =>
       matches_query toLowerCase (default "" (query o)) lecture
       && matches_grades (grades o) lecture
       && matches_majors (majors o) lecture
       && String.prefix (String_of_number c) (credits lecture)
       && matches_days parseSchedule (days o) lecture
       && matches_times parseSchedule (times o) lecture) lectures
  /\ forall lecture,
       In lecture (filteredLectures parseSchedule toLowerCase lectures o) <->
       In lecture lectures
       /\ String.prefix (String_of_number c) (credits lecture) = true
       /\ matches_query toLowerCase (default "" (query o)) lecture = true
       /\ matches_grades (grades o) lecture = true
       /\ matches_majors (majors o) lecture = true
       /\ matches_days parseSchedule (days o) lecture = true
       /\ matches_times parseSchedule (times o) lecture = true.
Proof.
  intros Hset Hc.
  assert (Hpass : forall lecture,
             passes parseSchedule toLowerCase o lecture
             = (matches_query toLowerCase (default "" (query o)) lecture
                && matches_grades (grades o) lecture
                && matches_majors (majors o) lecture
                && String.prefix (String_of_number c) (credits lecture)
                && matches_days parseSchedule (days o) lecture
                && matches_times parseSchedule (times o) lecture)).
  { intros lecture. unfold passes. rewrite Hset.
    rewrite (matches_credits_set c lecture Hc). reflexivity. }
  rewrite filteredLectures_one_pass. split.
  - apply filter_ext. exact Hpass.
  - intros lecture. rewrite filter_In, Hpass, !andb_true_iff. tauto.
Qed.

Lemma credits_filter_is_prefix_match_witness :
  In Samples.seminar
     (filteredLectures (fun _ => []) (fun s => s)
        [Samples.algorithms; Samples.seminar] Samples.credits_3).
Proof.
  apply (proj2 (credits_filter_is_prefix_match (fun _ => []) (fun s => s)
                  [Samples.algorithms; Samples.seminar] Samples.credits_3 3
                  eq_refl ltac:(lia))).
  repeat split; try reflexivity. right. left. reflexivity.
Defined.

End FilterFacts.

(** ** The fetch cache *)

Module CacheFacts.
Import JS Types SearchDialog.

Lemma cacheKey_inj (r r' : Resource) : cacheKey r = cacheKey r' -> r = r'.
Proof. destruct r, r'; simpl; intros H; first [reflexivity | discriminate H]. Qed.

Lemma url_inj (r r' : Resource) : url r = url r' -> r = r'.
Proof. destruct r, r'; simpl; intros H; first [reflexivity | discriminate H]. Qed.

(** A call that finds no entry issues the request and records its promise. *)
Lemma fetch_miss (r : Resource) (now : Q) (w : World) (cache : gmap string CacheEntry) :
  lectureApiCache w = Some cache ->
  cache !! cacheKey r = None ->
  fetch r now w =
  (length (requests w),
   {| lectureApiCache :=
        Some (<[cacheKey r := {| promise := length (requests w);
                                 timestamp := now; data := None |}]> cache);
      requests := requests w ++ [url r];
      callbacks := callbacks w ++ [(length (requests w), WindowCache, cacheKey r)] |}).
Proof.
  intros Hcache Hmiss. destruct w as [c reqs cbs]. simpl in *. subst c.
  destruct r; simpl in *;
    unfold fetchMajors, fetchLiberalArts, mbind, M_bind, getCache, cache_get, gets;
    simpl; rewrite Hmiss; reflexivity.
Qed.

(** A call that finds an entry returns its promise and touches nothing. *)
Lemma fetch_hit (r : Resource) (now : Q) (w : World)
    (cache : gmap string CacheEntry) (entry : CacheEntry) :
  lectureApiCache w = Some cache ->
  cache !! cacheKey r = Some entry ->
  fetch r now w = (promise entry, w).
Proof.
  intros Hcache Hhit. destruct w as [c reqs cbs]. simpl in *. subst c.
  destruct r; simpl in *;
    unfold fetchMajors, fetchLiberalArts, mbind, M_bind, getCache, cache_get, gets;
    simpl; rewrite Hhit; reflexivity.
Qed.

Lemma initCache_has_cache (w : World) : is_Some (lectureApiCache (initCache w)).
Proof. unfold initCache. destruct (lectureApiCache w) eqn:E; simpl; rewrite ?E; eauto. Qed.

(** C9: with the cache installed on [window] and no entry yet for the key,
    two calls of the fetch function for that key, the second made before
    anything settles, issue one request in all: the first call issues it and
    stores the pending promise under the key, and the second returns that
    same promise and issues nothing. *)
Theorem two_calls_one_request
    (r : Resource) (now1 now2 : Q) (w : World) (cache : gmap string CacheEntry) :
  lectureApiCache w = Some cache ->
  cache !! cacheKey r = None ->
  exists p w1 w2,
    fetch r now1 w = (p, w1) /\
    fetch r now2 w1 = (p, w2) /\
    requests w1 = requests w ++ [url r] /\
    (lectureApiCache w1 ≫= (.!! cacheKey r))
      = Some {| promise := p; timestamp := now1; data := None |} /\
    w2 = w1 /\
    requests w2 = requests w ++ [url r].
Proof.
  intros Hcache Hmiss.
  pose (entry := {| promise := length (requests w); timestamp := now1; data := None |}).
  pose (w1 := {| lectureApiCache := Some (<[cacheKey r := entry]> cache);
                 requests := requests w ++ [url r];
                 callbacks := callbacks w
                                ++ [(length (requests w), WindowCache, cacheKey r)] |}).
  exists (length (requests w)), w1, w1.
  split; [exact (fetch_miss r now1 w cache Hcache Hmiss)|].
  split.
  { apply (fetch_hit r now2 w1 (<[cacheKey r := entry]> cache) entry);
      [reflexivity | apply lookup_insert_eq]. }
  split; [reflexivity|]. split; [|split; reflexivity].
  simpl. apply lookup_insert_eq.
Qed.

Lemma two_calls_one_request_witness :
  exists p w1 w2,
    fetch Majors 10 Samples.page_loaded = (p, w1) /\
    fetch Majors 12 w1 = (p, w2) /\
    requests w2 = ["/schedules-majors.json"].
Proof.
  destruct (two_calls_one_request Majors 10 12 Samples.page_loaded ∅)
    as (p & w1 & w2 & H1 & H2 & _ & _ & _ & Hreq).
  - reflexivity.
  - apply lookup_empty.
  - exists p, w1, w2. split; [exact H1|]. split; [exact H2 | exact Hreq].
Defined.

Lemma run_callback_keeps (payload : list Lecture)
    (cb : Promise * CacheRef * string) (w : World) :
  cached_keys (run_callback payload cb w) = cached_keys w /\
  requests (run_callback payload cb w) = requests w.
Proof.
  destruct cb as [[p ref] key]. destruct ref; simpl; [|split; reflexivity].
  split; [|reflexivity]. unfold cached_keys. simpl.
  destruct (lectureApiCache w) as [cache|]; simpl; [|reflexivity].
  f_equal. apply dom_alter_L.
Qed.

Lemma resolve_keeps (p : Promise) (payload : list Lecture) (w : World) :
  cached_keys (resolve p payload w) = cached_keys w /\
  requests (resolve p payload w) = requests w.
Proof.
  unfold resolve. generalize (callbacks w) as cbs.
  intros cbs. revert w. induction cbs as [|cb cbs IH]; intros w; simpl.
  - split; reflexivity.
  - destruct cb as [[q ref] key]. simpl. destruct (Nat.eqb q p).
    + destruct (IH (run_callback payload (q, ref, key) w)) as [Hk Hr].
      destruct (run_callback_keeps payload (q, ref, key) w) as [Hk' Hr'].
      split; (etransitivity; [eassumption | assumption]).
    + apply IH.
Qed.

Lemma issued_app (u : string) (reqs : list string) (v : string)
    (w w' : World) :
  requests w' = requests w ++ [v] ->
  issued u w' = (issued u w + if String.eqb u v then 1 else 0)%nat.
Proof.
  intros H. unfold issued. rewrite H, List.filter_app, length_app. simpl.
  destruct (String.eqb u v); reflexivity.
Qed.

Lemma step_coherent (e : Event) (w : World) : coherent w -> coherent (step e w).
Proof.
  intros (keys & Hkeys & Hlog). destruct e as [r now | p payload]; simpl.
  - unfold cached_keys in Hkeys.
    destruct (lectureApiCache w) as [cache|] eqn:Hcache; [|discriminate].
    injection Hkeys as <-.
    destruct (cache !! cacheKey r) as [entry|] eqn:Hr.
    + rewrite (fetch_hit r now w cache entry Hcache Hr). simpl.
      exists (dom cache). unfold cached_keys. rewrite Hcache. split; [reflexivity | exact Hlog].
    + rewrite (fetch_miss r now w cache Hcache Hr). simpl.
      exists ({[cacheKey r]} ∪ dom cache). split.
      * unfold cached_keys. simpl. f_equal. apply dom_insert_L.
      * intros r'. rewrite (issued_app (url r') (requests w) (url r) w) by reflexivity.
        rewrite Hlog. destruct (String.eqb_spec (url r') (url r)) as [Hu|Hu].
        -- apply url_inj in Hu. subst r'.
           rewrite decide_False by (now apply not_elem_of_dom).
           rewrite decide_True by set_solver. reflexivity.
        -- assert (Hk : cacheKey r' <> cacheKey r)
             by (intros Hk; apply cacheKey_inj in Hk; now subst r').
           destruct (decide (cacheKey r' ∈ dom cache)).
           ++ rewrite decide_True by (apply elem_of_union; now right). lia.
           ++ rewrite decide_False; [lia|].
              intros [Hin|Hin]%elem_of_union; [|contradiction].
              apply elem_of_singleton in Hin. contradiction.
  - destruct (resolve_keeps p payload w) as [Hk Hr].
    exists keys. rewrite Hk. split; [exact Hkeys|].
    intros r. unfold issued. rewrite Hr. apply Hlog.
Qed.

Lemma steps_coherent (es : list Event) (w : World) :
  coherent w -> coherent (steps es w).
Proof.
  unfold steps. revert w. induction es as [|e es IH]; intros w Hw; simpl.
  - exact Hw.
  - apply IH. now apply step_coherent.
Qed.

Lemma page_loaded_coherent : coherent Samples.page_loaded.
Proof.
  exists ∅. split; [reflexivity|].
  intros r. rewrite decide_False by set_solver. reflexivity.
Qed.

(** X15: however many calls are made and whenever the promises settle, each
    resource is requested at most once after the page is loaded. *)
Lemma at_most_one_request_per_key (es : list Event) (r : Resource) :
  (issued (url r) (steps es Samples.page_loaded) <= 1)%nat.
Proof.
  destruct (steps_coherent es _ page_loaded_coherent) as (keys & _ & Hlog).
  rewrite Hlog. destruct (decide (cacheKey r ∈ keys)); lia.
Qed.

Lemma run_callback_promise (payload : list Lecture)
    (cb : Promise * CacheRef * string) (key : string) (w : World) :
  promise_at key (run_callback payload cb w) = promise_at key w.
Proof.
  destruct cb as [[p ref] k]. destruct ref; simpl; [|reflexivity].
  unfold promise_at. simpl.
  destruct (lectureApiCache w) as [cache|]; simpl; [|reflexivity].
  rewrite lookup_alter. destruct (decide (k = key)) as [->|_]; [|reflexivity].
  destruct (cache !! key); reflexivity.
Qed.

Lemma resolve_promise (p : Promise) (payload : list Lecture) (key : string) (w : World) :
  promise_at key (resolve p payload w) = promise_at key w.
Proof.
  unfold resolve. generalize (callbacks w) as cbs.
  intros cbs. revert w. induction cbs as [|cb cbs IH]; intros w; simpl.
  - reflexivity.
  - destruct cb as [[q ref] k]. simpl. destruct (Nat.eqb q p).
    + etransitivity; [apply IH|].
      exact (run_callback_promise payload (q, ref, k) key w).
    + apply IH.
Qed.

Lemma promise_at_Some (key : string) (w : World) (p : Promise) :
  promise_at key w = Some p ->
  exists cache entry,
    lectureApiCache w = Some cache /\ cache !! key = Some entry /\ promise entry = p.
Proof.
  unfold promise_at. destruct (lectureApiCache w) as [cache|]; simpl; [|discriminate].
  destruct (cache !! key) as [entry|] eqn:E; simpl; [|discriminate].
  intros [= <-]. eauto.
Qed.

(** Once a promise is cached for a resource, no event replaces it or issues
    another request for that resource. *)
Lemma step_keeps_promise (e : Event) (r : Resource) (p : Promise) (w : World) :
  promise_at (cacheKey r) w = Some p ->
  promise_at (cacheKey r) (step e w) = Some p /\
  issued (url r) (step e w) = issued (url r) w.
Proof.
  intros Hp. destruct e as [r' now | q payload]; simpl.
  - destruct (promise_at_Some _ _ _ Hp) as (cache & entry & Hcache & Hentry & Hprom).
    destruct (cache !! cacheKey r') as [entry'|] eqn:Hr'.
    + rewrite (fetch_hit r' now w cache entry' Hcache Hr'). simpl.
      split; [exact Hp | reflexivity].
    + rewrite (fetch_miss r' now w cache Hcache Hr'). simpl.
      assert (Hk : cacheKey r' <> cacheKey r) by congruence.
      split.
      * unfold promise_at. simpl. rewrite lookup_insert_ne by exact Hk.
        rewrite Hentry. simpl. now rewrite Hprom.
      * rewrite (issued_app (url r) (requests w) (url r') w) by reflexivity.
        destruct (String.eqb_spec (url r) (url r')) as [Hu|_]; [|lia].
        apply url_inj in Hu. congruence.
  - rewrite resolve_promise. split; [exact Hp|].
    unfold issued. now rewrite (proj2 (resolve_keeps q payload w)).
Qed.

Lemma steps_keep_promise (es : list Event) (r : Resource) (p : Promise) (w : World) :
  promise_at (cacheKey r) w = Some p ->
  promise_at (cacheKey r) (steps es w) = Some p /\
  issued (url r) (steps es w) = issued (url r) w.
Proof.
  unfold steps. revert w. induction es as [|e es IH]; intros w Hp; simpl.
  - split; [exact Hp | reflexivity].
  - destruct (step_keeps_promise e r p w Hp) as [Hp' Hi].
    destruct (IH (step e w) Hp') as [Hp'' Hi'].
    split; [exact Hp'' | congruence].
Qed.

(** X16: whatever happens after the first call of a resource (other calls,
    promises settling), a later call for the same resource gets the first
    call's promise, and the resource has been requested once more than
    before the first call. *)
Lemma later_call_shares_promise
    (r : Resource) (now now' : Q) (es : list Event) (w : World)
    (cache : gmap string CacheEntry) :
  lectureApiCache w = Some cache ->
  cache !! cacheKey r = None ->
  fst (fetch r now' (steps es (snd (fetch r now w)))) = fst (fetch r now w) /\
  issued (url r) (snd (fetch r now' (steps es (snd (fetch r now w)))))
  = S (issued (url r) w).
Proof.
  intros Hcache Hmiss. rewrite (fetch_miss r now w cache Hcache Hmiss). simpl.
  set (w1 := {| lectureApiCache := _; requests := _; callbacks := _ |}).
  assert (Hp : promise_at (cacheKey r) w1 = Some (length (requests w))).
  { unfold promise_at. simpl. now rewrite lookup_insert_eq. }
  destruct (steps_keep_promise es r _ w1 Hp) as [Hp' Hi].
  destruct (promise_at_Some _ _ _ Hp') as (cache' & entry & Hcache' & Hentry & Hprom).
  rewrite (fetch_hit r now' _ cache' entry Hcache' Hentry). simpl.
  split; [exact Hprom|]. rewrite Hi.
  rewrite (issued_app (url r) (requests w) (url r) w) by reflexivity.
  rewrite String.eqb_refl. lia.
Qed.

End CacheFacts.

(** ** Snapping and dropping *)

Module DragFacts.
Import JS Types Constants ScheduleDndProvider.

(** [Math.round] returns the integer nearest to its argument. *)
Lemma Math_round_nearest (q : Q) :
  (inject_Z (Math_round q) - (1 # 2) <= q)%Q /\
  (q < inject_Z (Math_round q) + (1 # 2))%Q.
Proof.
  unfold Math_round.
  pose proof (Qfloor_le (q + (1 # 2))) as Hlo.
  pose proof (Qlt_floor (q + (1 # 2))) as Hhi.
  rewrite inject_Z_plus in Hhi. change (inject_Z 1) with 1%Q in Hhi.
  split; lra.
Qed.

Lemma Qfloor_unique (q : Q) (k : Z) :
  (inject_Z k <= q)%Q -> (q < inject_Z k + 1)%Q -> Qfloor q = k.
Proof.
  intros Hlo Hhi.
  assert (k <= Qfloor q).
  { rewrite <- (Qfloor_Z k). now apply Qfloor_resp_le. }
  assert (Qfloor q < k + 1).
  { rewrite Zlt_Qlt, inject_Z_plus. change (inject_Z 1) with 1%Q.
    pose proof (Qfloor_le q). lra. }
  lia.
Qed.

(** A tie goes to the larger neighbour, whatever its sign. *)
Lemma Math_round_tie (m : Z) : Math_round (inject_Z m + (1 # 2)) = m + 1.
Proof.
  unfold Math_round. apply Qfloor_unique; rewrite inject_Z_plus;
    change (inject_Z 1) with 1%Q; lra.
Qed.

(** On a whole number of cells, [Math.floor] and [Math.round] agree. *)
Lemma whole_cells (d c : Q) (k : Z) :
  (0 < c)%Q -> (d == inject_Z k * c)%Q ->
  Math_floor (d / c) = k /\ Math_round (d / c) = k.
Proof.
  intros Hc Hd.
  assert (Hq : (d / c == inject_Z k)%Q).
  { rewrite Hd. apply Qdiv_mult_l. lra. }
  unfold Math_floor, Math_round.
  split; apply Qfloor_unique; rewrite Hq; lra.
Qed.

(** C3, as stated, fails: for an entry on Tuesday the clamp allows offsets
    from [-80] to [320]; for a raw delta of [-40] (half a cell to the left)
    the modifier reports [0], where ties away from zero would give [-80]. *)
Lemma snap_tie_goes_up_not_away :
  (left Samples.grid_container - left Samples.tuesday_cell + 120 + 1 == -80)%Q /\
  (right Samples.grid_container - right Samples.tuesday_cell == 320)%Q /\
  (x (createSnapModifier (Samples.pointer_at (-40) 0)
        (Some Samples.grid_container) (Some Samples.tuesday_cell)) == 0)%Q /\
  (inject_Z (Reference.round_half_away (-40 / CellSize.WIDTH)) * CellSize.WIDTH
   == -80)%Q /\
  ~ (x (createSnapModifier (Samples.pointer_at (-40) 0)
          (Some Samples.grid_container) (Some Samples.tuesday_cell)) == -80)%Q.
Proof.
  split; [vm_compute; reflexivity|].
  split; [vm_compute; reflexivity|].
  split; [vm_compute; reflexivity|].
  split; [vm_compute; reflexivity|].
  vm_compute. discriminate.
Qed.

(** C3 (amended): the modifier snaps each raw delta [d] to
    [Math.round(d / c) * c] before clamping, where [Math.round] is
    round-to-nearest with ties toward positive infinity: the result [n] is
    the integer with [n - 1/2 <= d / c < n + 1/2], so half a cell to the
    left rounds to zero cells, not to minus one.  With a cell width of 80,
    83 snaps to 80 and -40 snaps to 0. *)
Theorem snap_rounds_to_nearest_ties_up
    (transform : Transform) (containerNodeRect draggingNodeRect : option ClientRect) :
  let snapped := createSnapModifier transform containerNodeRect draggingNodeRect in
  let n := Math_round (x transform / CellSize.WIDTH) in
  let k := Math_round (y transform / CellSize.HEIGHT) in
  let minX := (field_or_0 left containerNodeRect
               - field_or_0 left draggingNodeRect + 120 + 1)%Q in
  let minY := (field_or_0 top containerNodeRect
               - field_or_0 top draggingNodeRect + 40 + 1)%Q in
  let maxX := (field_or_0 right containerNodeRect
               - field_or_0 right draggingNodeRect)%Q in
  let maxY := (field_or_0 bottom containerNodeRect
               - field_or_0 bottom draggingNodeRect)%Q in
  (x snapped == Qmin (Qmax (inject_Z n * CellSize.WIDTH) minX) maxX)%Q /\
  (y snapped == Qmin (Qmax (inject_Z k * CellSize.HEIGHT) minY) maxY)%Q /\
  (inject_Z n - (1 # 2) <= x transform / CellSize.WIDTH < inject_Z n + (1 # 2))%Q /\
  (inject_Z k - (1 # 2) <= y transform / CellSize.HEIGHT < inject_Z k + (1 # 2))%Q /\
  (forall m : Z, Math_round (inject_Z m + (1 # 2)) = m + 1) /\
  Math_round (83 / CellSize.WIDTH) = 1 /\
  Math_round (-40 / CellSize.WIDTH) = 0.
Proof.
  intros snapped n k minX minY maxX maxY.
  split; [reflexivity|]. split; [reflexivity|].
  split; [apply Math_round_nearest|]. split; [apply Math_round_nearest|].
  split; [apply Math_round_tie|]. split; reflexivity.
Qed.

(** The spec's own sample deltas, for an entry on Tuesday. *)
Lemma snap_samples :
  (x (createSnapModifier (Samples.pointer_at 83 0)
        (Some Samples.grid_container) (Some Samples.tuesday_cell)) == 80)%Q /\
  (x (createSnapModifier (Samples.pointer_at (-41) 0)
        (Some Samples.grid_container) (Some Samples.tuesday_cell)) == -80)%Q /\
  (x (createSnapModifier (Samples.pointer_at 40 0)
        (Some Samples.grid_container) (Some Samples.tuesday_cell)) == 80)%Q.
Proof. repeat split; vm_compute; reflexivity. Qed.

(** What [handleDragEnd] passes on when it makes the call. *)
Lemma handleDragEnd_call (tableId : string) (event : DragEndEvent) (u : PositionUpdate) :
  handleDragEnd tableId event = Some u ->
  let newDayIndex :=
    indexOf DAY_LABELS (active_day event)
    + Math_floor (delta_x event / CellSize.WIDTH) in
  0 <= newDayIndex < 6 /\
  u = {| upd_tableId := tableId;
         upd_scheduleIndex := Number_ (split ":" (active_id event) !! 1%nat);
         upd_newDay := nth (Z.to_nat newDayIndex) DAY_LABELS "";
         upd_timeOffset := Math_floor (delta_y event / CellSize.HEIGHT) |}.
Proof.
  intros H newDayIndex. unfold handleDragEnd in H.
  destruct (negb _); [discriminate|].
  fold newDayIndex in H.
  destruct (newDayIndex <? 0) eqn:Hlo; [discriminate|].
  destruct (newDayIndex >=? Z.of_nat (length DAY_LABELS)) eqn:Hhi; [discriminate|].
  simpl in H. injection H as <-.
  apply Z.ltb_ge in Hlo. rewrite Z.geb_leb in Hhi. apply Z.leb_gt in Hhi.
  simpl in Hhi. split; [lia | reflexivity].
Qed.

(** C2, as stated, fails: a drag clamped at the container's edge ends with
    the delta (390, 680); the handler makes the call with a time offset of
    22 and the day four columns on, where rounding to nearest gives 23 and
    five columns. *)
Lemma drag_end_floors_clamped_delta :
  (delta_x Samples.clamped_drop == 390)%Q /\
  (delta_y Samples.clamped_drop == 680)%Q /\
  handleDragEnd "schedule-1" Samples.clamped_drop
  = Some {| upd_tableId := "schedule-1"; upd_scheduleIndex := Some 0;
            upd_newDay := "금"; upd_timeOffset := 22 |} /\
  Math_round (delta_y Samples.clamped_drop / CellSize.HEIGHT) = 23 /\
  Math_round (delta_x Samples.clamped_drop / CellSize.WIDTH) = 5 /\
  nth 5 DAY_LABELS "" = "토".
Proof. repeat split; vm_compute; reflexivity. Qed.

(** C2 (amended): when the drag-end handler makes the position update, it
    has converted the final delta to cell deltas with [Math.floor]:
    [dayDelta = floor(finalX / cellWidth)], [timeDelta = floor(finalY /
    cellHeight)], the new day is the label at the old day's index plus
    [dayDelta], and [timeDelta] is passed as the [timeOffset].  For a delta of
    a whole number of cells this is the same as rounding to nearest. *)
Theorem drag_end_converts_by_floor
    (tableId : string) (event : DragEndEvent) (u : PositionUpdate) :
  handleDragEnd tableId event = Some u ->
  let dayDelta := Math_floor (delta_x event / CellSize.WIDTH) in
  let timeDelta := Math_floor (delta_y event / CellSize.HEIGHT) in
  let newDayIndex := indexOf DAY_LABELS (active_day event) + dayDelta in
  upd_timeOffset u = timeDelta /\
  0 <= newDayIndex < 6 /\
  DAY_LABELS !! Z.to_nat newDayIndex = Some (upd_newDay u) /\
  upd_tableId u = tableId /\
  (forall prev,
      drop tableId event prev
      = ScheduleContext.updateSchedulePosition tableId
          (default (-1) (upd_scheduleIndex u)) (upd_newDay u) timeDelta prev) /\
  (forall i : Z, (delta_x event == inject_Z i * CellSize.WIDTH)%Q ->
      dayDelta = i /\ Math_round (delta_x event / CellSize.WIDTH) = i) /\
  (forall j : Z, (delta_y event == inject_Z j * CellSize.HEIGHT)%Q ->
      timeDelta = j /\ Math_round (delta_y event / CellSize.HEIGHT) = j).
Proof.
  intros Hcall dayDelta timeDelta newDayIndex.
  destruct (handleDragEnd_call tableId event u Hcall) as [Hrange Hu].
  fold dayDelta timeDelta newDayIndex in Hrange, Hu.
  split; [rewrite Hu; reflexivity|]. split; [exact Hrange|].
  split.
  { rewrite Hu. cbn [upd_newDay]. rewrite nth_lookup.
    destruct (lookup_lt_is_Some_2 DAY_LABELS (Z.to_nat newDayIndex)) as [d Hd];
      [simpl; lia|].
    rewrite Hd. reflexivity. }
  split; [rewrite Hu; reflexivity|]. split.
  { intros prev. unfold drop. rewrite Hcall. unfold commit.
    rewrite Hu. reflexivity. }
  split; intros i Hi; apply whole_cells; try exact Hi; reflexivity.
Qed.

Lemma drag_end_converts_by_floor_witness :
  handleDragEnd "schedule-1" Samples.aligned_drop
  = Some {| upd_tableId := "schedule-1"; upd_scheduleIndex := Some 0;
            upd_newDay := "화"; upd_timeOffset := 2 |} /\
  upd_timeOffset {| upd_tableId := "schedule-1"; upd_scheduleIndex := Some 0;
                    upd_newDay := "화"; upd_timeOffset := 2 |}
  = Math_floor (delta_y Samples.aligned_drop / CellSize.HEIGHT).
Proof.
  assert (H : handleDragEnd "schedule-1" Samples.aligned_drop
              = Some {| upd_tableId := "schedule-1"; upd_scheduleIndex := Some 0;
                        upd_newDay := "화"; upd_timeOffset := 2 |})
    by (vm_compute; reflexivity).
  split; [exact H|].
  exact (proj1 (drag_end_converts_by_floor "schedule-1" Samples.aligned_drop _ H)).
Defined.

End DragFacts.

(** * Further properties of the store *)

Module StoreLemmas.
Import JS Types ScheduleContext StoreFacts.

Lemma includes_number_In (xs : list Z) (x : Z) :
  includes_number xs x = true <-> In x xs.
Proof.
  unfold includes_number. rewrite existsb_exists. split.
  - intros (y & Hy & Heq). apply Z.eqb_eq in Heq. now subst.
  - intros H. exists x. split; [exact H | apply Z.eqb_refl].
Qed.

(** The predicate [removeSchedule] filters with. *)
Lemma kept_iff (d : string) (time : Z) (e : Schedule) :
  negb (String.eqb (day e) d) || negb (includes_number (range e) time) = true
  <-> ~ (day e = d /\ In time (range e)).
Proof.
  rewrite orb_true_iff, !negb_true_iff. split.
  - intros [Hd|Ht] [Hday Hin].
    + apply String.eqb_neq in Hd. contradiction.
    + apply includes_number_In in Hin. congruence.
  - intros Hnot. destruct (String.eqb_spec (day e) d) as [Hd|Hd]; [|now left].
    right. destruct (includes_number (range e) time) eqn:E; [|reflexivity].
    apply includes_number_In in E. exfalso. apply Hnot. now split.
Qed.

(** A boolean filter and the filter by the proposition it decides give the
    same list. *)
Lemma filter_decides {A} (f : A -> bool) (P : A -> Prop)
    `{!forall x, Decision (P x)} (l : list A) :
  (forall x, f x = true <-> P x) -> List.filter f l = filter P l.
Proof.
  intros Hf. induction l as [|x l IH]; [reflexivity|].
  cbn [List.filter]. rewrite filter_cons, IH.
  destruct (decide (P x)) as [HP|HP].
  - apply Hf in HP. now rewrite HP.
  - destruct (f x) eqn:E; [|reflexivity]. apply Hf in E. contradiction.
Qed.

(** What [removeSchedule] keeps of a list, as a filter by a proposition. *)
Lemma removeSchedule_filter (d : string) (time : Z) (l : list Schedule) :
  List.filter (fun e => negb (String.eqb (day e) d)
                        || negb (includes_number (range e) time)) l
  = filter (fun e => ~ (day e = d /\ time ∈ range e)) l.
Proof.
  apply filter_decides. intros e. rewrite kept_iff.
  now rewrite <- list_elem_of_In.
Qed.

Lemma addSchedule_Ok tableId ss (m : SchedulesMap) l :
  m !! tableId = Some l ->
  addSchedule tableId ss m = Ok (<[tableId := l ++ ss]> m).
Proof.
  intros H. unfold addSchedule. now rewrite (get_iterable_Some _ _ _ H).
Qed.

Lemma removeSchedule_Ok tableId d time (m : SchedulesMap) l :
  m !! tableId = Some l ->
  removeSchedule tableId d time m =
  Ok (<[tableId := List.filter (fun e => negb (String.eqb (day e) d)
                                         || negb (includes_number (range e) time)) l]> m).
Proof.
  intros H. unfold removeSchedule. now rewrite (get_iterable_Some _ _ _ H).
Qed.

Lemma filter_sublist {A : Type} (f : A -> bool) (l : list A) :
  List.filter f l `sublist_of` l.
Proof.
  induction l as [|a l IH]; simpl; [constructor|].
  destruct (f a); now constructor.
Qed.

Lemma filter_idem {A : Type} (f : A -> bool) (l : list A) :
  List.filter f (List.filter f l) = List.filter f l.
Proof.
  induction l as [|a l IH]; simpl; [reflexivity|].
  destruct (f a) eqn:E; simpl; rewrite ?E, IH; reflexivity.
Qed.

Lemma filter_all {A : Type} (f : A -> bool) (l : list A) :
  (forall a, In a l -> f a = true) -> List.filter f l = l.
Proof.
  induction l as [|a l IH]; simpl; intros H; [reflexivity|].
  rewrite (H a) by now left. f_equal. apply IH. intros b Hb. apply H. now right.
Qed.

Lemma imap_reposition_compose i d1 o1 d2 o2 (l : list Schedule) :
  imap (reposition i d2 o2) (imap (reposition i d1 o1) l)
  = imap (reposition i d2 (o1 + o2)) l.
Proof.
  apply list_eq. intros j. rewrite !list_lookup_imap.
  destruct (l !! j) as [e|]; simpl; [|reflexivity]. f_equal.
  unfold reposition. destruct (Z.eqb_spec (Z.of_nat j) i); simpl; [|reflexivity].
  f_equal. rewrite List.map_map. apply List.map_ext. intros t. lia.
Qed.

Lemma In_imap {A B : Type} (f : nat -> A -> B) (l : list A) (b : B) :
  In b (imap f l) -> exists j a, l !! j = Some a /\ b = f j a.
Proof.
  intros H. apply list_elem_of_In, list_elem_of_lookup in H as [j Hj].
  rewrite list_lookup_imap in Hj. destruct (l !! j) as [a|] eqn:E; [|discriminate].
  injection Hj as <-. eauto.
Qed.

End StoreLemmas.

Module StoreExtras.
Import JS Types ScheduleContext StoreFacts StoreLemmas.

(** X1: for a [tableId] that is not a key of the mapping, [removeSchedule],
    [duplicateTable] and [updateSchedulePosition] throw a [TypeError] from
    their updater, whatever the other arguments; [removeTable] alone is
    harmless and returns the mapping unchanged. *)
Theorem unknown_table_throws_except_removeTable (m : SchedulesMap) (tableId : string) :
  m !! tableId = None ->
  (forall d time, removeSchedule tableId d time m = Throw TypeError) /\
  (forall now, duplicateTable tableId now m = Throw TypeError) /\
  (forall i d off, updateSchedulePosition tableId i d off m = Throw TypeError) /\
  removeTable tableId m = m.
Proof.
  intros Hm. repeat split; intros;
    unfold removeSchedule, duplicateTable, updateSchedulePosition, removeTable;
    rewrite ?(get_iterable_None _ _ Hm); try reflexivity.
  now apply delete_id.
Qed.

Lemma unknown_table_throws_except_removeTable_witness :
  duplicateTable "schedule-7" 5 Samples.one_table = Throw TypeError /\
  removeTable "schedule-7" Samples.one_table = Samples.one_table.
Proof.
  destruct (unknown_table_throws_except_removeTable Samples.one_table "schedule-7")
    as (_ & Hdup & _ & Hrem).
  - apply lookup_singleton_ne. discriminate.
  - split; [apply Hdup | exact Hrem].
Defined.

(** X2: on a table the mapping has, [addSchedule] appends: the table's list
    becomes the old list followed by the new entries, no other table changes,
    and the set of tables is the same.  Adding in two steps equals adding the
    concatenation in one, and adding no entries gives back an equal mapping. *)
Theorem addSchedule_appends (m : SchedulesMap) (tableId : string)
    (l ss ss' : list Schedule) :
  m !! tableId = Some l ->
  exists m1,
    addSchedule tableId ss m = Ok m1 /\
    m1 !! tableId = Some (l ++ ss) /\
    (forall t, t <> tableId -> m1 !! t = m !! t) /\
    dom m1 = dom m /\
    addSchedule tableId ss' m1 = addSchedule tableId (ss ++ ss') m /\
    addSchedule tableId [] m = Ok m.
Proof.
  intros Hm. exists (<[tableId := l ++ ss]> m).
  split; [now apply addSchedule_Ok|].
  split; [apply lookup_insert_eq|].
  split; [intros t Ht; apply lookup_insert_ne; congruence|].
  split; [apply dom_insert_lookup_L; rewrite Hm; eauto|].
  split.
  - rewrite (addSchedule_Ok _ ss' _ (l ++ ss)) by apply lookup_insert_eq.
    rewrite (addSchedule_Ok _ (ss ++ ss') _ l Hm).
    now rewrite insert_insert_eq, app_assoc.
  - rewrite (addSchedule_Ok _ [] _ l Hm), app_nil_r. f_equal. now apply insert_id.
Qed.

Lemma addSchedule_appends_witness :
  exists m1,
    addSchedule "schedule-1" [Samples.friday_slot] Samples.one_table = Ok m1 /\
    m1 !! "schedule-1"
    = Some ([Samples.monday_slot; Samples.friday_slot] ++ [Samples.friday_slot]).
Proof.
  destruct (addSchedule_appends Samples.one_table "schedule-1"
              [Samples.monday_slot; Samples.friday_slot] [Samples.friday_slot] [])
    as (m1 & Hrun & Hl & _).
  - apply lookup_singleton_eq.
  - exists m1. split; [exact Hrun | exact Hl].
Defined.

(** X3: [removeSchedule(tableId, day, time)] replaces the table's list by
    the list of those of its entries, each as often as it occurred and in
    the same order, that are not both on [day] and covering [time]: the
    result is the original list filtered by that condition, so every entry
    on [day] covering [time] is gone, every other occurrence is kept, and
    the other tables are left as they were. *)
Theorem removeSchedule_removes_all_and_only (m : SchedulesMap) (tableId : string)
    (l : list Schedule) (d : string) (time : Z) :
  m !! tableId = Some l ->
  exists m1 l1,
    removeSchedule tableId d time m = Ok m1 /\
    m1 = <[tableId := l1]> m /\
    m1 !! tableId = Some l1 /\
    l1 = filter (fun e => ~ (day e = d /\ time ∈ range e)) l /\
    l1 `sublist_of` l /\
    (forall e, In e l1 <-> In e l /\ ~ (day e = d /\ In time (range e))) /\
    (forall i e, l !! i = Some e -> ~ (day e = d /\ In time (range e)) ->
                 l1 !! length (filter (fun e => ~ (day e = d /\ time ∈ range e))
                                      (take i l)) = Some e) /\
    (forall t, t <> tableId -> m1 !! t = m !! t).
Proof.
  intros Hm.
  pose (l1 := List.filter (fun e => negb (String.eqb (day e) d)
                                    || negb (includes_number (range e) time)) l).
  exists (<[tableId := l1]> m), l1. split; [now apply removeSchedule_Ok|].
  split; [reflexivity|].
  split; [apply lookup_insert_eq|].
  split; [apply removeSchedule_filter|].
  split; [apply filter_sublist|].
  split; [|split].
  - intros e. unfold l1. rewrite filter_In, kept_iff. reflexivity.
  - intros i e Hi Hkeep. unfold l1. rewrite removeSchedule_filter.
    pose proof (take_drop_middle l i e Hi) as Hsplit.
    remember (take i l) as before eqn:Hbefore.
    remember (drop (S i) l) as after eqn:Hafter.
    clear Hbefore Hafter. rewrite <- Hsplit.
    rewrite filter_app, filter_cons.
    destruct (decide (~ (day e = d /\ time ∈ range e))) as [_|Hno].
    + now rewrite lookup_app_r, Nat.sub_diag by reflexivity.
    + exfalso. apply Hno. now rewrite list_elem_of_In.
  - intros t Ht. apply lookup_insert_ne. congruence.
Qed.

Lemma removeSchedule_removes_all_and_only_witness :
  exists m1 l1,
    removeSchedule "schedule-1" "월" 2 Samples.one_table = Ok m1 /\
    m1 !! "schedule-1" = Some l1 /\
    l1 = [Samples.friday_slot] /\
    ~ In Samples.monday_slot l1 /\
    In Samples.friday_slot l1.
Proof.
  destruct (removeSchedule_removes_all_and_only Samples.one_table "schedule-1"
              [Samples.monday_slot; Samples.friday_slot] "월" 2)
    as (m1 & l1 & Hrun & _ & Hl1 & Heq & _ & Hkeep & _).
  - apply lookup_singleton_eq.
  - exists m1, l1. split; [exact Hrun|]. split; [exact Hl1|].
    split; [rewrite Heq; now vm_compute|]. split.
    + intros Hin. apply Hkeep in Hin as [_ Hnot]. apply Hnot.
      split; [reflexivity | simpl; tauto].
    + apply Hkeep. split; [simpl; tauto|].
      intros [Hday _]. discriminate Hday.
Defined.

(** X4: removing at the same (day, time) a second time changes nothing, and
    when no entry of the table is on [day] and covers [time] the first
    removal already gives back an equal mapping. *)
Theorem removeSchedule_idempotent (m : SchedulesMap) (tableId : string)
    (l : list Schedule) (d : string) (time : Z) :
  m !! tableId = Some l ->
  exists m1,
    removeSchedule tableId d time m = Ok m1 /\
    removeSchedule tableId d time m1 = Ok m1 /\
    ((forall e, In e l -> ~ (day e = d /\ In time (range e))) -> m1 = m).
Proof.
  intros Hm.
  pose (l1 := List.filter (fun e => negb (String.eqb (day e) d)
                                    || negb (includes_number (range e) time)) l).
  exists (<[tableId := l1]> m). split; [now apply removeSchedule_Ok|]. split.
  - rewrite (removeSchedule_Ok _ _ _ _ l1) by apply lookup_insert_eq.
    unfold l1. now rewrite filter_idem, insert_insert_eq.
  - intros Hnone. unfold l1. rewrite filter_all; [now apply insert_id|].
    intros e He. apply kept_iff. now apply Hnone.
Qed.

Lemma removeSchedule_idempotent_witness :
  exists m1,
    removeSchedule "schedule-1" "수" 1 Samples.one_table = Ok m1 /\
    removeSchedule "schedule-1" "수" 1 m1 = Ok m1.
Proof.
  destruct (removeSchedule_idempotent Samples.one_table "schedule-1"
              [Samples.monday_slot; Samples.friday_slot] "수" 1)
    as (m1 & H1 & H2 & _).
  - apply lookup_singleton_eq.
  - exists m1. split; [exact H1 | exact H2].
Defined.

(** X5: duplicating a table under an id the mapping does not have yet and
    then removing the table with that id gives back the original mapping. *)
Theorem duplicate_then_remove_restores (m : SchedulesMap) (tableId : string)
    (l : list Schedule) (now : Z) :
  m !! tableId = Some l ->
  m !! newTableId now = None ->
  exists m1,
    duplicateTable tableId now m = Ok m1 /\
    removeTable (newTableId now) m1 = m.
Proof.
  intros Hm Hfresh. exists (<[newTableId now := l]> m).
  split; [now apply duplicateTable_Ok|].
  unfold removeTable. rewrite delete_insert_eq. now apply delete_id.
Qed.

Lemma duplicate_then_remove_restores_witness :
  exists m1,
    duplicateTable "schedule-1" 42 Samples.one_table = Ok m1 /\
    removeTable (newTableId 42) m1 = Samples.one_table.
Proof.
  apply (duplicate_then_remove_restores Samples.one_table "schedule-1"
           [Samples.monday_slot; Samples.friday_slot] 42).
  - apply lookup_singleton_eq.
  - apply lookup_singleton_ne. vm_compute. discriminate.
Defined.

(** X6: two position updates of the same index in a row equal one update to
    the last day with the two offsets added. *)
Theorem updates_compose (m : SchedulesMap) (tableId : string) (l : list Schedule)
    (i : Z) (d1 d2 : string) (o1 o2 : Z) :
  m !! tableId = Some l ->
  exists m1,
    updateSchedulePosition tableId i d1 o1 m = Ok m1 /\
    updateSchedulePosition tableId i d2 o2 m1
    = updateSchedulePosition tableId i d2 (o1 + o2) m.
Proof.
  intros Hm. exists (<[tableId := imap (reposition i d1 o1) l]> m).
  split; [now apply updateSchedulePosition_Ok|].
  rewrite (updateSchedulePosition_Ok _ _ _ _ _ (imap (reposition i d1 o1) l))
    by apply lookup_insert_eq.
  rewrite (updateSchedulePosition_Ok _ _ _ _ _ _ Hm).
  now rewrite imap_reposition_compose, insert_insert_eq.
Qed.

Lemma updates_compose_witness :
  exists m1,
    updateSchedulePosition "schedule-1" 0 "화" 2 Samples.one_table = Ok m1 /\
    updateSchedulePosition "schedule-1" 0 "수" 3 m1
    = updateSchedulePosition "schedule-1" 0 "수" (2 + 3) Samples.one_table.
Proof.
  apply (updates_compose Samples.one_table "schedule-1"
           [Samples.monday_slot; Samples.friday_slot] 0 "화" "수" 2 3).
  apply lookup_singleton_eq.
Defined.

End StoreExtras.

(** ** Entries stay well formed *)

Module InvariantFacts.
Import JS Types ScheduleContext StoreFacts StoreLemmas Invariants.

Lemma contiguous_shift (off : Z) (r : list Z) :
  contiguous (List.map (fun time => time + off) r) = contiguous r.
Proof.
  induction r as [|a r IH]; [reflexivity|].
  destruct r as [|b r]; [reflexivity|].
  change (((b + off =? a + off + 1) && contiguous (List.map (fun time => time + off) (b :: r)))
          = ((b =? a + 1) && contiguous (b :: r))).
  rewrite IH. f_equal.
  destruct (Z.eqb_spec b (a + 1)), (Z.eqb_spec (b + off) (a + off + 1)); try reflexivity; lia.
Qed.

Lemma entry_ok_reposition i newDay off (j : nat) (e : Schedule) :
  entry_ok (reposition i newDay off j e) = entry_ok e.
Proof.
  unfold reposition. destruct (negb _); [reflexivity|].
  unfold entry_ok. simpl. now rewrite length_map, contiguous_shift.
Qed.

Lemma forallb_filter {A : Type} (f g : A -> bool) (l : list A) :
  forallb f l = true -> forallb f (List.filter g l) = true.
Proof.
  rewrite !forallb_forall. intros H a Ha. apply filter_In in Ha as [Ha _]. auto.
Qed.

Lemma forallb_imap_reposition i newDay off (l : list Schedule) :
  forallb entry_ok l = true ->
  forallb entry_ok (imap (reposition i newDay off) l) = true.
Proof.
  rewrite !forallb_forall. intros H e He.
  apply In_imap in He as (j & a & Hj & ->).
  rewrite entry_ok_reposition. apply H.
  apply list_elem_of_In, list_elem_of_lookup. eauto.
Qed.

(** X7: every write action keeps the entries well formed.  If each entry of
    each table has a non-empty range of consecutive slots, and so do the
    entries an [addSchedule] brings, then the same holds of the mapping the
    action publishes: position updates shift a range as a whole, and the
    other actions copy, drop or append entries unchanged. *)
Theorem writes_keep_ranges_contiguous (op : WriteOp) (m m' : SchedulesMap) :
  store_ok m ->
  brings_ok op = true ->
  run op m = Ok m' ->
  store_ok m'.
Proof.
  intros Hok Hbrings Hrun t l Hl.
  destruct op as [t0 ss | t0 d time | t0 now | t0 | t0 i d off]; simpl in *.
  - apply bind_Ok_inv in Hrun as (cur & Hcur & [= <-]).
    apply get_iterable_Ok_inv in Hcur.
    destruct (decide (t0 = t)) as [->|Hne].
    + rewrite lookup_insert_eq in Hl. injection Hl as <-.
      rewrite forallb_app, (Hok _ _ Hcur), Hbrings. reflexivity.
    + rewrite lookup_insert_ne in Hl by exact Hne. eauto.
  - apply bind_Ok_inv in Hrun as (cur & Hcur & [= <-]).
    apply get_iterable_Ok_inv in Hcur.
    destruct (decide (t0 = t)) as [->|Hne].
    + rewrite lookup_insert_eq in Hl. injection Hl as <-.
      apply forallb_filter. eauto.
    + rewrite lookup_insert_ne in Hl by exact Hne. eauto.
  - apply bind_Ok_inv in Hrun as (cur & Hcur & [= <-]).
    apply get_iterable_Ok_inv in Hcur.
    destruct (decide (newTableId now = t)) as [<-|Hne].
    + rewrite lookup_insert_eq in Hl. injection Hl as <-. eauto.
    + rewrite lookup_insert_ne in Hl by exact Hne. eauto.
  - injection Hrun as <-. unfold removeTable in Hl.
    apply lookup_delete_Some in Hl as [_ Hl]. eauto.
  - apply bind_Ok_inv in Hrun as (cur & Hcur & [= <-]).
    apply get_iterable_Ok_inv in Hcur.
    destruct (decide (t0 = t)) as [->|Hne].
    + rewrite lookup_insert_eq in Hl. injection Hl as <-.
      apply forallb_imap_reposition. eauto.
    + rewrite lookup_insert_ne in Hl by exact Hne. eauto.
Qed.

Lemma sample_store_ok : store_ok Samples.one_table.
Proof.
  intros t l Hl. unfold Samples.one_table in Hl.
  apply lookup_singleton_Some in Hl as [_ <-]. reflexivity.
Qed.

Lemma writes_keep_ranges_contiguous_witness :
  store_ok (<["schedule-1" :=
               imap (reposition 0 "토" 30) [Samples.monday_slot; Samples.friday_slot]]>
              Samples.one_table).
Proof.
  apply (writes_keep_ranges_contiguous
           (UpdateSchedulePosition "schedule-1" 0 "토" 30) Samples.one_table).
  - exact sample_store_ok.
  - reflexivity.
  - unfold run. apply updateSchedulePosition_Ok. apply lookup_singleton_eq.
Defined.

End InvariantFacts.

(** ** The per-table provider and the store *)

Module ProviderFacts.
Import JS Types StoreFacts StoreLemmas.

Lemma provider_move_is_reposition i newDay off (l : list Schedule) :
  imap (fun index schedule =>
          if negb (Z.of_nat index =? i) then schedule
          else {| day := newDay;
                  range := List.map (fun time => time + off) (range schedule);
                  room := room schedule;
                  lecture := lecture schedule |}) l
  = imap (ScheduleContext.reposition i newDay off) l.
Proof. reflexivity. Qed.

(** X8: the per-table provider computes the same lists as the store.  When
    the provider holds the list the store has for [tableId], each of its
    three actions leaves it holding the list the store's action of the same
    name publishes for that table, and hands that list to its parent. *)
Theorem provider_agrees_with_store
    (m : ScheduleContext.SchedulesMap) (tableId : string)
    (p : TableScheduleContext.Provider) :
  m !! tableId = Some (TableScheduleContext.schedules p) ->
  (forall ss,
      let p' := TableScheduleContext.act
                  (fun r => TableScheduleContext.addSchedules r ss) p in
      ScheduleContext.addSchedule tableId ss m
      = Ok (<[tableId := TableScheduleContext.schedules p']> m) /\
      last (TableScheduleContext.reported p')
      = Some (TableScheduleContext.schedules p')) /\
  (forall d time,
      let p' := TableScheduleContext.act
                  (fun r => TableScheduleContext.removeSchedule r d time) p in
      ScheduleContext.removeSchedule tableId d time m
      = Ok (<[tableId := TableScheduleContext.schedules p']> m) /\
      last (TableScheduleContext.reported p')
      = Some (TableScheduleContext.schedules p')) /\
  (forall i d off,
      let p' := TableScheduleContext.act
                  (fun r => TableScheduleContext.updateSchedulePosition r i d off) p in
      ScheduleContext.updateSchedulePosition tableId i d off m
      = Ok (<[tableId := TableScheduleContext.schedules p']> m) /\
      last (TableScheduleContext.reported p')
      = Some (TableScheduleContext.schedules p')).
Proof.
  intros Hm. split; [|split]; intros; subst p'; simpl; (split; [|apply last_snoc]).
  - now apply addSchedule_Ok.
  - now apply removeSchedule_Ok.
  - rewrite provider_move_is_reposition. now apply updateSchedulePosition_Ok.
Qed.

Lemma provider_agrees_with_store_witness :
  ScheduleContext.removeSchedule "schedule-1" "금" 6 Samples.one_table
  = Ok (<["schedule-1" :=
            TableScheduleContext.schedules
              (TableScheduleContext.act
                 (fun r => TableScheduleContext.removeSchedule r "금" 6)
                 (TableScheduleContext.mount
                    [Samples.monday_slot; Samples.friday_slot]))]>
          Samples.one_table).
Proof.
  destruct (provider_agrees_with_store Samples.one_table "schedule-1"
              (TableScheduleContext.mount [Samples.monday_slot; Samples.friday_slot]))
    as (_ & Hrem & _).
  - apply lookup_singleton_eq.
  - exact (proj1 (Hrem "금" 6)).
Defined.

End ProviderFacts.

(** * Further properties of dragging *)

Module DragLemmas.
Import JS Types Constants ScheduleDndProvider.

Lemma indexOf_from_spec (xs : list string) (x : string) (i : Z) :
  (indexOf_from xs x i = -1 \/
   (i <= indexOf_from xs x i < i + Z.of_nat (length xs) /\
    nth (Z.to_nat (indexOf_from xs x i - i)) xs "" = x)).
Proof.
  revert i. induction xs as [|y ys IH]; intros i; simpl; [now left|].
  destruct (String.eqb_spec y x) as [->|Hne].
  - right. split; [lia|]. now rewrite Z.sub_diag.
  - destruct (IH (i + 1)) as [Hnone|[Hrange Hnth]]; [now left|].
    right. split; [lia|].
    replace (Z.to_nat (indexOf_from ys x (i + 1) - i))
      with (S (Z.to_nat (indexOf_from ys x (i + 1) - (i + 1)))) by lia.
    exact Hnth.
Qed.

(** A day that [indexOf] finds is the label at the index found. *)
Lemma indexOf_DAY_LABELS (d : string) :
  0 <= indexOf DAY_LABELS (Some d) ->
  indexOf DAY_LABELS (Some d) < 6 /\
  nth (Z.to_nat (indexOf DAY_LABELS (Some d))) DAY_LABELS "" = d.
Proof.
  intros Hk. unfold indexOf in *.
  destruct (indexOf_from_spec DAY_LABELS d 0) as [Hnone|[Hrange Hnth]]; [lia|].
  rewrite Z.sub_0_r in Hnth.
  change (Z.of_nat (length DAY_LABELS)) with 6 in Hrange.
  split; [lia | exact Hnth].
Qed.

Lemma handleDragEnd_Some (tableId : string) (event : DragEndEvent) :
  split ":" (active_id event) !! 0%nat = Some tableId ->
  0 <= indexOf DAY_LABELS (active_day event)
       + Math_floor (delta_x event / CellSize.WIDTH) < 6 ->
  handleDragEnd tableId event =
  Some {| upd_tableId := tableId;
          upd_scheduleIndex := Number_ (split ":" (active_id event) !! 1%nat);
          upd_newDay :=
            nth (Z.to_nat (indexOf DAY_LABELS (active_day event)
                           + Math_floor (delta_x event / CellSize.WIDTH)))
                DAY_LABELS "";
          upd_timeOffset := Math_floor (delta_y event / CellSize.HEIGHT) |}.
Proof.
  intros Hid Hrange. unfold handleDragEnd.
  rewrite bool_decide_eq_true_2 by exact Hid. simpl negb. cbv iota.
  set (ndi := indexOf DAY_LABELS (active_day event)
              + Math_floor (delta_x event / CellSize.WIDTH)) in *.
  destruct (Z.ltb_spec ndi 0); [lia|].
  rewrite Z.geb_leb. destruct (Z.leb_spec (Z.of_nat (length DAY_LABELS)) ndi) as [Hge|_].
  - simpl in Hge. lia.
  - reflexivity.
Qed.

Lemma handleDragEnd_None_iff (tableId : string) (event : DragEndEvent) :
  handleDragEnd tableId event = None <->
  split ":" (active_id event) !! 0%nat <> Some tableId
  \/ indexOf DAY_LABELS (active_day event)
     + Math_floor (delta_x event / CellSize.WIDTH) < 0
  \/ 6 <= indexOf DAY_LABELS (active_day event)
          + Math_floor (delta_x event / CellSize.WIDTH).
Proof.
  set (ndi := indexOf DAY_LABELS (active_day event)
              + Math_floor (delta_x event / CellSize.WIDTH)).
  destruct (decide (split ":" (active_id event) !! 0%nat = Some tableId)) as [Hid|Hid].
  - destruct (Z.lt_ge_cases ndi 0) as [Hlo|Hlo];
      [|destruct (Z.lt_ge_cases ndi 6) as [Hhi|Hhi]].
    + split; [intros _; right; now left|]. intros _. unfold handleDragEnd.
      rewrite bool_decide_eq_true_2 by exact Hid. simpl negb. cbv iota.
      fold ndi. destruct (Z.ltb_spec ndi 0); [reflexivity | lia].
    + rewrite (handleDragEnd_Some tableId event Hid) by (fold ndi; lia).
      split; [discriminate|]. intros [H|[H|H]]; [contradiction | lia | lia].
    + split; [intros _; right; now right|]. intros _. unfold handleDragEnd.
      rewrite bool_decide_eq_true_2 by exact Hid. simpl negb. cbv iota.
      fold ndi. destruct (Z.ltb_spec ndi 0); [reflexivity|].
      rewrite Z.geb_leb.
      destruct (Z.leb_spec (Z.of_nat (length DAY_LABELS)) ndi) as [_|Hlt];
        [reflexivity | simpl in Hlt; lia].
  - split; [intros _; now left|]. intros _. unfold handleDragEnd.
    rewrite bool_decide_eq_false_2 by exact Hid. reflexivity.
Qed.

(** Clamping a whole number of cells between two whole numbers of cells. *)
Lemma clamp_cells (n a b : Z) (c s lo hi : Q) :
  (0 < c)%Q ->
  (s == inject_Z n * c)%Q -> (lo == inject_Z a * c)%Q -> (hi == inject_Z b * c)%Q ->
  (Math_min (Math_max s lo) hi == inject_Z (Z.min (Z.max n a) b) * c)%Q.
Proof.
  intros Hc Hs Hlo Hhi. unfold Math_min, Math_max. rewrite Hs, Hlo, Hhi.
  assert (Hmono : forall u v : Z, u <= v -> (inject_Z u * c <= inject_Z v * c)%Q).
  { intros u v Huv. apply Qmult_le_compat_r; [now rewrite <- Zle_Qle | lra]. }
  assert (Hmax : (Qmax (inject_Z n * c) (inject_Z a * c)
                  == inject_Z (Z.max n a) * c)%Q).
  { destruct (Z.max_spec n a) as [[Hlt ->]|[Hle ->]].
    - apply Q.max_r. apply Hmono. lia.
    - apply Q.max_l. apply Hmono. lia. }
  rewrite Hmax.
  destruct (Z.min_spec (Z.max n a) b) as [[Hlt ->]|[Hle ->]].
  - apply Q.min_l. apply Hmono. lia.
  - apply Q.min_r. apply Hmono. lia.
Qed.

Lemma floor_of_cells (d c : Q) (k : Z) :
  (0 < c)%Q -> (d == inject_Z k * c)%Q -> Math_floor (d / c) = k.
Proof.
  intros Hc Hd. unfold Math_floor.
  assert (Hq : (d / c == inject_Z k)%Q) by (rewrite Hd; apply Qdiv_mult_l; lra).
  rewrite Hq. apply Qfloor_Z.
Qed.

(** [Number] on the second piece of some ids: decimal, signed, padded,
    exponent, fraction and hexadecimal spellings of an index, and texts
    that are no index. *)
Lemma Number_spellings :
  Number_ (Some "1") = Some 1 /\
  Number_ (Some "1e0") = Some 1 /\
  Number_ (Some " 1") = Some 1 /\
  Number_ (Some "+1") = Some 1 /\
  Number_ (Some "0x1") = Some 1 /\
  Number_ (Some "1.0") = Some 1 /\
  Number_ (Some "10e-1") = Some 1 /\
  Number_ (Some "") = Some 0 /\
  Number_ (Some "-0") = Some 0 /\
  Number_ (Some "-1") = Some (-1) /\
  Number_ (Some "1.5") = None /\
  Number_ (Some "1e") = None /\
  Number_ (Some "-0x1") = None /\
  Number_ (Some "1 2") = None /\
  Number_ (Some "Infinity") = None /\
  Number_ (Some "one") = None /\
  Number_ None = None.
Proof. vm_compute. repeat split. Qed.

(** A drop whose id spells the index [1] as [1e0] moves entry 1, as the
    plain spelling does. *)
Lemma drop_reads_the_index_as_a_number :
  drop "schedule-1"
    {| active_id := "schedule-1:1e0"; active_day := Some "금";
       delta_x := -80; delta_y := 30 |} Samples.one_table
  = drop "schedule-1"
    {| active_id := "schedule-1:1"; active_day := Some "금";
       delta_x := -80; delta_y := 30 |} Samples.one_table /\
  drop "schedule-1"
    {| active_id := "schedule-1:1e0"; active_day := Some "금";
       delta_x := -80; delta_y := 30 |} Samples.one_table
  = Ok {[ "schedule-1" :=
            [Samples.monday_slot;
             {| day := "목"; range := [6; 7; 8]; room := "B202";
                lecture := Samples.seminar |}] ]}.
Proof.
  split; [reflexivity|].
  unfold drop.
  assert (Hcall : handleDragEnd "schedule-1"
            {| active_id := "schedule-1:1e0"; active_day := Some "금";
               delta_x := -80; delta_y := 30 |}
          = Some {| upd_tableId := "schedule-1"; upd_scheduleIndex := Some 1;
                    upd_newDay := "목"; upd_timeOffset := 1 |})
    by (vm_compute; reflexivity).
  rewrite Hcall. unfold commit, ScheduleContext.updateSchedulePosition.
  cbn [upd_tableId upd_scheduleIndex upd_newDay upd_timeOffset default].
  unfold Samples.one_table.
  unfold get_iterable. rewrite lookup_singleton_eq.
  cbn [bind]. rewrite insert_singleton_eq. reflexivity.
Qed.

End DragLemmas.

Module DragExtras.
Import JS Types Constants ScheduleDndProvider StoreFacts DragLemmas.

(** X9: the drag-end handler returns without a position update exactly when
    the dragged id belongs to another table or the target column
    (the entry's column plus [floor(x / 80)]) is not one of the six days.
    The vertical delta plays no part in that decision.  A discarded drop
    leaves the mapping as it is. *)
Theorem drop_discarded_iff (tableId : string) (event : DragEndEvent) :
  (handleDragEnd tableId event = None <->
   split ":" (active_id event) !! 0%nat <> Some tableId
   \/ indexOf DAY_LABELS (active_day event)
      + Math_floor (delta_x event / CellSize.WIDTH) < 0
   \/ 6 <= indexOf DAY_LABELS (active_day event)
           + Math_floor (delta_x event / CellSize.WIDTH)) /\
  (forall y' : Q,
      handleDragEnd tableId event = None <->
      handleDragEnd tableId {| active_id := active_id event;
                               active_day := active_day event;
                               delta_x := delta_x event;
                               delta_y := y' |} = None) /\
  (forall prev, handleDragEnd tableId event = None -> drop tableId event prev = Ok prev).
Proof.
  split; [apply handleDragEnd_None_iff|]. split.
  - intros y'. rewrite !handleDragEnd_None_iff. reflexivity.
  - intros prev H. unfold drop. now rewrite H.
Qed.

(** X10: a drop with no net movement is a no-op on the mapping.  When the
    day the event carries is the day of the entry its id points at, a drop
    with delta (0, 0) publishes a mapping equal to the one before (or
    publishes nothing, when the handler returns early). *)
Theorem zero_movement_drop_is_noop
    (m : ScheduleContext.SchedulesMap) (tableId : string) (l : list Schedule)
    (event : DragEndEvent) (d : string) :
  m !! tableId = Some l ->
  active_day event = Some d ->
  (delta_x event == 0)%Q ->
  (delta_y event == 0)%Q ->
  (forall e,
      l !! Z.to_nat (default (-1) (Number_ (split ":" (active_id event) !! 1%nat)))
      = Some e -> day e = d) ->
  drop tableId event m = Ok m.
Proof.
  intros Hm Hday Hx Hy Hentry. unfold drop.
  destruct (handleDragEnd tableId event) as [u|] eqn:Hcall; [|reflexivity].
  assert (Hfx : Math_floor (delta_x event / CellSize.WIDTH) = 0).
  { unfold Math_floor. rewrite Hx. reflexivity. }
  assert (Hfy : Math_floor (delta_y event / CellSize.HEIGHT) = 0).
  { unfold Math_floor. rewrite Hy. reflexivity. }
  assert (Hnone := proj1 (handleDragEnd_None_iff tableId event)).
  assert (Hk : 0 <= indexOf DAY_LABELS (Some d)).
  { destruct (Z.lt_ge_cases (indexOf DAY_LABELS (Some d)) 0) as [Hneg|]; [|assumption].
    exfalso. assert (Hn : handleDragEnd tableId event = None).
    { apply handleDragEnd_None_iff. right. left. rewrite Hday, Hfx. lia. }
    congruence. }
  destruct (indexOf_DAY_LABELS d Hk) as [Hlt Hnth].
  assert (Hid : split ":" (active_id event) !! 0%nat = Some tableId).
  { destruct (decide (split ":" (active_id event) !! 0%nat = Some tableId)) as [H|H];
      [exact H|].
    exfalso. assert (Hn : handleDragEnd tableId event = None)
      by (apply handleDragEnd_None_iff; now left).
    congruence. }
  rewrite (handleDragEnd_Some tableId event Hid) in Hcall
    by (rewrite Hday, Hfx; lia).
  apply (inj Some) in Hcall. rewrite <- Hcall. unfold commit.
  cbn [upd_tableId upd_scheduleIndex upd_newDay upd_timeOffset].
  rewrite Hday, Hfx, Hfy, Z.add_0_r, Hnth.
  rewrite (updateSchedulePosition_Ok _ _ _ _ _ _ Hm). f_equal.
  rewrite imap_lookup_id; [now apply insert_id|].
  intros j e Hj. unfold ScheduleContext.reposition.
  destruct (Z.eqb_spec (Z.of_nat j)
              (default (-1) (Number_ (split ":" (active_id event) !! 1%nat))))
    as [Heq|Hne]; simpl; [|reflexivity].
  rewrite <- Heq, Nat2Z.id in Hentry. rewrite <- (Hentry e Hj).
  destruct e as [ed er eroom elec]. simpl. f_equal.
  rewrite <- (List.map_id er) at 2. apply List.map_ext. intros t. lia.
Qed.

Lemma zero_movement_drop_is_noop_witness :
  drop "schedule-1"
    {| active_id := "schedule-1:1"; active_day := Some "금";
       delta_x := 0; delta_y := 0 |} Samples.one_table
  = Ok Samples.one_table.
Proof.
  apply (zero_movement_drop_is_noop Samples.one_table "schedule-1"
           [Samples.monday_slot; Samples.friday_slot] _ "금").
  - apply lookup_singleton_eq.
  - reflexivity.
  - reflexivity.
  - reflexivity.
  - intros e He. vm_compute in He. injection He as <-. reflexivity.
Defined.

(** X11: the offset the modifier reports never exceeds the upper clamp
    ([containerRight - right], [containerBottom - bottom]), and when the
    lower clamp is not above the upper one it is not below the lower clamp
    ([containerLeft - left + 121], [containerTop - top + 41]) either: the
    dragged box stays right of the time column, below the header row and
    inside the container. *)
Theorem snap_modifier_clamps
    (transform : Transform) (containerNodeRect draggingNodeRect : option ClientRect) :
  let out := createSnapModifier transform containerNodeRect draggingNodeRect in
  let minX := (field_or_0 left containerNodeRect
               - field_or_0 left draggingNodeRect + 120 + 1)%Q in
  let minY := (field_or_0 top containerNodeRect
               - field_or_0 top draggingNodeRect + 40 + 1)%Q in
  let maxX := (field_or_0 right containerNodeRect
               - field_or_0 right draggingNodeRect)%Q in
  let maxY := (field_or_0 bottom containerNodeRect
               - field_or_0 bottom draggingNodeRect)%Q in
  (x out <= maxX)%Q /\ (y out <= maxY)%Q /\
  ((minX <= maxX)%Q -> (minX <= x out)%Q) /\
  ((minY <= maxY)%Q -> (minY <= y out)%Q) /\
  ((maxX < minX)%Q -> (x out == maxX)%Q) /\
  ((maxY < minY)%Q -> (y out == maxY)%Q).
Proof.
  intros out minX minY maxX maxY. subst out. unfold createSnapModifier.
  cbn [x y]. fold minX minY maxX maxY. unfold Math_min, Math_max.
  split; [apply Q.le_min_r|]. split; [apply Q.le_min_r|].
  split; [|split; [|split]].
  - intros H. apply Q.min_glb; [apply Q.le_max_r | exact H].
  - intros H. apply Q.min_glb; [apply Q.le_max_r | exact H].
  - intros H. apply Q.min_r.
    eapply Qle_trans; [apply Qlt_le_weak, H | apply Q.le_max_r].
  - intros H. apply Q.min_r.
    eapply Qle_trans; [apply Qlt_le_weak, H | apply Q.le_max_r].
Qed.

(** X12: when neither rectangle has been measured (both are absent), the
    modifier reports the offset (0, 0) whatever the raw delta: the lower
    clamps are then 121 and 41, above the upper clamps of 0. *)
Theorem snap_modifier_without_rects (transform : Transform) :
  (x (createSnapModifier transform None None) == 0)%Q /\
  (y (createSnapModifier transform None None) == 0)%Q.
Proof.
  unfold createSnapModifier. cbn [x y field_or_0]. unfold Math_min, Math_max.
  split; apply Q.min_r;
    (eapply Qle_trans; [|apply Q.le_max_r]); vm_compute; discriminate.
Qed.

(** X13: when the snapped offset lies within the clamp on both axes, the
    cell deltas the drag-end handler computes from the reported offset are
    the roundings of the raw delta: [floor(out.x / 80) = round(raw.x / 80)]
    and [floor(out.y / 30) = round(raw.y / 30)]. *)
Theorem unclamped_drop_moves_by_rounded_delta
    (transform : Transform) (containerNodeRect draggingNodeRect : option ClientRect) :
  let out := createSnapModifier transform containerNodeRect draggingNodeRect in
  let n := Math_round (x transform / CellSize.WIDTH) in
  let k := Math_round (y transform / CellSize.HEIGHT) in
  (field_or_0 left containerNodeRect - field_or_0 left draggingNodeRect + 120 + 1
   <= inject_Z n * CellSize.WIDTH
   <= field_or_0 right containerNodeRect - field_or_0 right draggingNodeRect)%Q ->
  (field_or_0 top containerNodeRect - field_or_0 top draggingNodeRect + 40 + 1
   <= inject_Z k * CellSize.HEIGHT
   <= field_or_0 bottom containerNodeRect - field_or_0 bottom draggingNodeRect)%Q ->
  Math_floor (x out / CellSize.WIDTH) = n /\
  Math_floor (y out / CellSize.HEIGHT) = k.
Proof.
  intros out n k [Hxlo Hxhi] [Hylo Hyhi]. subst out. unfold createSnapModifier.
  cbn [x y]. fold n k. unfold Math_min, Math_max. split.
  - apply floor_of_cells; [reflexivity|].
    rewrite Q.min_l; [apply Q.max_l; exact Hxlo|].
    apply Q.max_lub; assumption || (eapply Qle_trans; eassumption).
  - apply floor_of_cells; [reflexivity|].
    rewrite Q.min_l; [apply Q.max_l; exact Hylo|].
    apply Q.max_lub; assumption || (eapply Qle_trans; eassumption).
Qed.

Lemma unclamped_drop_moves_by_rounded_delta_witness :
  Math_floor (x (createSnapModifier (Samples.pointer_at 83 50)
                   (Some Samples.grid_container) (Some Samples.tuesday_cell))
              / CellSize.WIDTH) = 1 /\
  Math_floor (y (createSnapModifier (Samples.pointer_at 83 50)
                   (Some Samples.grid_container) (Some Samples.tuesday_cell))
              / CellSize.HEIGHT) = 2.
Proof.
  split.
  - apply (proj1 (unclamped_drop_moves_by_rounded_delta (Samples.pointer_at 83 50)
                    (Some Samples.grid_container) (Some Samples.tuesday_cell)
                    ltac:(split; vm_compute; discriminate)
                    ltac:(split; vm_compute; discriminate))).
  - apply (proj2 (unclamped_drop_moves_by_rounded_delta (Samples.pointer_at 83 50)
                    (Some Samples.grid_container) (Some Samples.tuesday_cell)
                    ltac:(split; vm_compute; discriminate)
                    ltac:(split; vm_compute; discriminate))).
Defined.

End DragExtras.

(** ** Dragging an entry laid out by the table *)

Module LayoutFacts.
Import JS Types Constants ScheduleDndProvider DragLemmas.

Lemma grid_extent :
  (ScheduleTable.grid_width == 600)%Q /\ (ScheduleTable.grid_height == 760)%Q.
Proof. split; vm_compute; reflexivity. Qed.

(** X14: for an entry the table has laid out with [position] inside a
    container of the grid's extent, the clamp bounds are whole cells, so the
    offset the modifier reports is a whole number [i] of columns and [j] of
    rows that keeps the entry on the grid: the target column is one of the
    six days, and the shifted range starts at slot 1 or later and ends at
    slot 24 or earlier.  A drop with that offset is therefore never
    discarded, and moves the entry by exactly [i] days and [j] slots. *)
Theorem laid_out_entry_stays_on_grid
    (transform : Transform) (c g : ClientRect)
    (d : string) (s : Z) (rest : list Z) (ptop : Q) :
  let range := s :: rest in
  let k := indexOf DAY_LABELS (Some d) in
  let len := Z.of_nat (length range) in
  let pos := ScheduleTable.position d range in
  let out := createSnapModifier transform (Some c) (Some g) in
  0 <= k ->
  1 <= s ->
  s + len - 1 <= ScheduleTable.TIMES_length ->
  (right c == left c + ScheduleTable.grid_width)%Q ->
  (bottom c == top c + ScheduleTable.grid_height)%Q ->
  ScheduleTable.p_top pos = Some ptop ->
  (left g == left c + ScheduleTable.p_left pos)%Q ->
  (top g == top c + ptop)%Q ->
  (right g == left g + ScheduleTable.p_width pos)%Q ->
  (bottom g == top g + ScheduleTable.p_height pos)%Q ->
  exists i j : Z,
    (x out == inject_Z i * CellSize.WIDTH)%Q /\
    (y out == inject_Z j * CellSize.HEIGHT)%Q /\
    0 <= k + i < 6 /\
    1 <= s + j /\ s + j + len - 1 <= ScheduleTable.TIMES_length /\
    forall tableId event,
      split ":" (active_id event) !! 0%nat = Some tableId ->
      active_day event = Some d ->
      (delta_x event == x out)%Q ->
      (delta_y event == y out)%Q ->
      handleDragEnd tableId event =
      Some {| upd_tableId := tableId;
              upd_scheduleIndex := Number_ (split ":" (active_id event) !! 1%nat);
              upd_newDay := nth (Z.to_nat (k + i)) DAY_LABELS "";
              upd_timeOffset := j |}.
Proof.
  intros range k len pos out Hk Hs Hlast Hcr Hcb Hptop Hgl Hgt Hgr Hgb.
  destruct (indexOf_DAY_LABELS d Hk) as [Hk6 _]. fold k in Hk6.
  destruct grid_extent as [Hgw Hgh]. rewrite Hgw in Hcr. rewrite Hgh in Hcb.
  assert (Hlen : 1 <= len) by (subst len range; simpl length; lia).
  change ScheduleTable.TIMES_length with 24 in *.
  subst pos. unfold ScheduleTable.position in Hptop, Hgl, Hgr, Hgb.
  cbn [ScheduleTable.p_top ScheduleTable.p_left ScheduleTable.p_width
       ScheduleTable.p_height] in Hptop, Hgl, Hgr, Hgb.
  fold k len in Hgl, Hgb. subst range. cbn [head fmap option_fmap option_map] in Hptop.
  apply (inj Some) in Hptop. subst ptop.
  unfold CellSize.WIDTH, CellSize.HEIGHT in Hgl, Hgt, Hgr, Hgb.
  pose (n := Math_round (x transform / CellSize.WIDTH)).
  pose (n' := Math_round (y transform / CellSize.HEIGHT)).
  pose (i := Z.min (Z.max n (- k)) (5 - k)).
  pose (j := Z.min (Z.max n' (- (s - 1))) (24 - (s - 1) - len)).
  assert (Hx : (x out == inject_Z i * CellSize.WIDTH)%Q).
  { subst out. unfold createSnapModifier. cbn [x field_or_0].
    apply clamp_cells; [reflexivity | reflexivity | |].
    - rewrite inject_Z_opp. unfold CellSize.WIDTH. lra.
    - unfold Z.sub. rewrite inject_Z_plus, inject_Z_opp. unfold CellSize.WIDTH.
      change (inject_Z 5) with 5%Q. lra. }
  assert (Hy : (y out == inject_Z j * CellSize.HEIGHT)%Q).
  { subst out. unfold createSnapModifier. cbn [y field_or_0].
    apply clamp_cells; [reflexivity | reflexivity | |].
    - unfold Z.sub in *. rewrite inject_Z_opp, inject_Z_plus.
      rewrite inject_Z_plus in Hgt. unfold CellSize.HEIGHT.
      change (inject_Z (-1)) with (-1)%Q in *. lra.
    - unfold Z.sub in *. rewrite !inject_Z_plus, !inject_Z_opp, inject_Z_plus.
      rewrite inject_Z_plus in Hgt. unfold CellSize.HEIGHT.
      change (inject_Z (-1)) with (-1)%Q in *. change (inject_Z 24) with 24%Q. lra. }
  exists i, j. split; [exact Hx|]. split; [exact Hy|].
  split; [subst i; lia|]. split; [subst j; lia|]. split; [subst j; lia|].
  intros tableId event Hid Hday Hdx Hdy.
  assert (Hfx : Math_floor (delta_x event / CellSize.WIDTH) = i).
  { apply floor_of_cells; [reflexivity|]. now rewrite Hdx. }
  assert (Hfy : Math_floor (delta_y event / CellSize.HEIGHT) = j).
  { apply floor_of_cells; [reflexivity|]. now rewrite Hdy. }
  rewrite (handleDragEnd_Some tableId event Hid);
    rewrite Hday, Hfx; fold k; [|subst i; lia].
  now rewrite Hfy.
Qed.

Lemma laid_out_entry_stays_on_grid_witness :
  exists i j : Z,
    (x (createSnapModifier (Samples.pointer_at 1000 (-1000))
          (Some Samples.grid_container) (Some Samples.tuesday_cell))
     == inject_Z i * CellSize.WIDTH)%Q /\
    (y (createSnapModifier (Samples.pointer_at 1000 (-1000))
          (Some Samples.grid_container) (Some Samples.tuesday_cell))
     == inject_Z j * CellSize.HEIGHT)%Q /\
    0 <= 1 + i < 6 /\ 1 <= 1 + j.
Proof.
  destruct (laid_out_entry_stays_on_grid (Samples.pointer_at 1000 (-1000))
              Samples.grid_container Samples.tuesday_cell "화" 1 [] 41)
    as (i & j & Hx & Hy & Hcol & Hfirst & _).
  - vm_compute. discriminate.
  - lia.
  - vm_compute. discriminate.
  - vm_compute. reflexivity.
  - vm_compute. reflexivity.
  - vm_compute. reflexivity.
  - vm_compute. reflexivity.
  - vm_compute. reflexivity.
  - vm_compute. reflexivity.
  - vm_compute. reflexivity.
  - exists i, j. split; [exact Hx|]. split; [exact Hy|]. split; [exact Hcol | exact Hfirst].
Defined.

End LayoutFacts.

(** * Further properties of the catalog cache *)

Module LoadingFacts.
Import JS Types SearchDialog SearchResults CacheFacts.

Lemma fetch_without_cache (r : Resource) (now : Q) (w : World) :
  lectureApiCache w = None ->
  fetch r now w =
  (length (requests w),
   {| lectureApiCache := None;
      requests := requests w ++ [url r];
      callbacks := callbacks w ++ [(length (requests w), FreshMap, cacheKey r)] |}).
Proof.
  intros Hnone. destruct w as [c reqs cbs]. simpl in *. subst c.
  destruct r; reflexivity.
Qed.

(** X17: without the map on [window], [getCache] hands out a new map at every
    call and nothing is remembered: two calls for the same resource issue
    two requests and return two different promises. *)
Theorem no_window_cache_no_sharing (r : Resource) (now1 now2 : Q) (w : World) :
  lectureApiCache w = None ->
  exists p1 p2 w1 w2,
    fetch r now1 w = (p1, w1) /\
    fetch r now2 w1 = (p2, w2) /\
    p1 <> p2 /\
    requests w2 = requests w ++ [url r; url r] /\
    lectureApiCache w2 = None.
Proof.
  intros Hnone.
  pose (w1 := {| lectureApiCache := None;
                 requests := requests w ++ [url r];
                 callbacks := callbacks w
                                ++ [(length (requests w), FreshMap, cacheKey r)] |}).
  eexists (length (requests w)), (length (requests w1)), w1, _.
  split; [exact (fetch_without_cache r now1 w Hnone)|].
  split; [exact (fetch_without_cache r now2 w1 eq_refl)|].
  split; [|split; [|reflexivity]].
  - simpl. rewrite length_app. simpl. lia.
  - simpl. now rewrite <- app_assoc.
Qed.

Lemma no_window_cache_no_sharing_witness :
  exists p1 p2 w1 w2,
    fetch Majors 1 {| lectureApiCache := None; requests := []; callbacks := [] |}
    = (p1, w1) /\
    fetch Majors 2 w1 = (p2, w2) /\
    p1 <> p2 /\
    requests w2 = ["/schedules-majors.json"; "/schedules-majors.json"].
Proof.
  destruct (no_window_cache_no_sharing Majors 1 2
              {| lectureApiCache := None; requests := []; callbacks := [] |} eq_refl)
    as (p1 & p2 & w1 & w2 & H1 & H2 & Hne & Hreq & _).
  exists p1, p2, w1, w2. split; [exact H1|]. split; [exact H2|].
  split; [exact Hne | exact Hreq].
Defined.

Section WithServer.
Variable server : string -> list Lecture.

(** A call that misses, awaited. *)
Lemma call_await_miss (r : Resource) (now : Q) (w : World)
    (cache : gmap string CacheEntry) :
  lectureApiCache w = Some cache ->
  cache !! cacheKey r = None ->
  exists w',
    (fetch r now ≫= await server) w = (server (url r), w') /\
    requests w' = requests w ++ [url r] /\
    cached_keys w' = Some ({[cacheKey r]} ∪ dom cache) /\
    promise_at (cacheKey r) w' = Some (length (requests w)) /\
    (forall k, k <> cacheKey r -> promise_at k w' = promise_at k w).
Proof.
  intros Hcache Hmiss.
  unfold mbind, M_bind. rewrite (fetch_miss r now w cache Hcache Hmiss).
  set (w1 := {| lectureApiCache := _; requests := _; callbacks := _ |}).
  unfold await. exists (resolve (length (requests w))
                          (server (nth (length (requests w)) (requests w1) "")) w1).
  assert (Hnth : nth (length (requests w)) (requests w1) "" = url r).
  { subst w1. simpl. rewrite app_nth2 by lia. now rewrite Nat.sub_diag. }
  split; [now rewrite Hnth|].
  destruct (resolve_keeps (length (requests w))
              (server (nth (length (requests w)) (requests w1) "")) w1) as [Hk Hr].
  split; [rewrite Hr; reflexivity|].
  split; [rewrite Hk; unfold cached_keys; simpl; f_equal; apply dom_insert_L|].
  split.
  - rewrite resolve_promise. unfold promise_at. simpl. now rewrite lookup_insert_eq.
  - intros k Hne. rewrite resolve_promise. unfold promise_at. simpl.
    rewrite Hcache. simpl. now rewrite lookup_insert_ne by congruence.
Qed.

(** A call that hits, awaited. *)
Lemma call_await_hit (r : Resource) (now : Q) (w : World) (p : Promise) :
  promise_at (cacheKey r) w = Some p ->
  nth p (requests w) "" = url r ->
  exists w',
    (fetch r now ≫= await server) w = (server (url r), w') /\
    requests w' = requests w /\
    cached_keys w' = cached_keys w /\
    (forall k, promise_at k w' = promise_at k w).
Proof.
  intros Hp Hnth.
  destruct (promise_at_Some _ _ _ Hp) as (cache & entry & Hcache & Hentry & Hprom).
  unfold mbind, M_bind. rewrite (fetch_hit r now w cache entry Hcache Hentry).
  unfold await. rewrite Hprom, Hnth.
  exists (resolve p (server (url r)) w).
  destruct (resolve_keeps p (server (url r)) w) as [Hk Hr].
  split; [reflexivity|]. split; [exact Hr|]. split; [exact Hk|].
  intros k. apply resolve_promise.
Qed.

Lemma not_cached (k : string) (w : World) (keys : gset string) :
  cached_keys w = Some keys -> k ∉ keys ->
  exists cache, lectureApiCache w = Some cache /\ cache !! k = None.
Proof.
  unfold cached_keys. destruct (lectureApiCache w) as [cache|]; [|discriminate].
  simpl. intros [= <-] Hk. exists cache. split; [reflexivity|].
  now apply not_elem_of_dom.
Qed.

(** X18: on a freshly loaded page [fetchAllLectures] makes its six calls but
    only two requests, one per resource, and the six responses are the two
    answers alternating.  The list handed to [setLectures] is therefore the
    whole catalog three times over. *)
Theorem fetchAllLectures_two_requests_catalog_thrice
    (now1 now2 now3 now4 now5 now6 : Q) (w : World) (cache : gmap string CacheEntry) :
  lectureApiCache w = Some cache ->
  cache !! cacheKey Majors = None ->
  cache !! cacheKey LiberalArts = None ->
  let majors := server (url Majors) in
  let liberalArts := server (url LiberalArts) in
  exists w',
    fetchAllLectures server now1 now2 now3 now4 now5 now6 w
    = ([majors; liberalArts; majors; liberalArts; majors; liberalArts], w') /\
    requests w' = requests w ++ [url Majors; url LiberalArts] /\
    loaded_lectures [majors; liberalArts; majors; liberalArts; majors; liberalArts]
    = (majors ++ liberalArts) ++ (majors ++ liberalArts) ++ (majors ++ liberalArts).
Proof.
  intros Hcache HM HL majors liberalArts.
  destruct (call_await_miss Majors now1 w cache Hcache HM)
    as (w1 & E1 & R1 & K1 & P1 & O1).
  destruct (not_cached (cacheKey LiberalArts) w1 _ K1) as (cache1 & Hc1 & HL1).
  { intros [Hin|Hin]%elem_of_union.
    - apply elem_of_singleton in Hin. discriminate Hin.
    - apply elem_of_dom in Hin. rewrite HL in Hin. now destruct Hin. }
  destruct (call_await_miss LiberalArts now2 w1 cache1 Hc1 HL1)
    as (w2 & E2 & R2 & K2 & P2 & O2).
  assert (PM2 : promise_at (cacheKey Majors) w2 = Some (length (requests w))).
  { rewrite O2 by discriminate. exact P1. }
  assert (NM2 : nth (length (requests w)) (requests w2) "" = url Majors).
  { rewrite R2, R1, <- app_assoc. rewrite app_nth2 by lia. now rewrite Nat.sub_diag. }
  assert (NL2 : nth (length (requests w1)) (requests w2) "" = url LiberalArts).
  { rewrite R2. rewrite app_nth2 by lia. now rewrite Nat.sub_diag. }
  destruct (call_await_hit Majors now3 w2 _ PM2 NM2) as (w3 & E3 & R3 & _ & O3).
  destruct (call_await_hit LiberalArts now4 w3 (length (requests w1)))
    as (w4 & E4 & R4 & _ & O4); [now rewrite O3 | now rewrite R3|].
  destruct (call_await_hit Majors now5 w4 (length (requests w)))
    as (w5 & E5 & R5 & _ & O5); [now rewrite O4, O3 | now rewrite R4, R3|].
  destruct (call_await_hit LiberalArts now6 w5 (length (requests w1)))
    as (w6 & E6 & R6 & _ & O6);
    [now rewrite O5, O4, O3 | now rewrite R5, R4, R3|].
  exists w6. split; [|split].
  - unfold fetchAllLectures.
    change (fetchMajors now1) with (fetch Majors now1).
    change (fetchLiberalArts now2) with (fetch LiberalArts now2).
    change (fetchMajors now3) with (fetch Majors now3).
    change (fetchLiberalArts now4) with (fetch LiberalArts now4).
    change (fetchMajors now5) with (fetch Majors now5).
    change (fetchLiberalArts now6) with (fetch LiberalArts now6).
    unfold mbind at 1. unfold M_bind at 1. rewrite E1.
    unfold mbind at 1. unfold M_bind at 1. rewrite E2.
    unfold mbind at 1. unfold M_bind at 1. rewrite E3.
    unfold mbind at 1. unfold M_bind at 1. rewrite E4.
    unfold mbind at 1. unfold M_bind at 1. rewrite E5.
    unfold mbind at 1. unfold M_bind at 1. rewrite E6.
    reflexivity.
  - rewrite R6, R5, R4, R3, R2, R1. now rewrite <- app_assoc.
  - unfold loaded_lectures. simpl. rewrite app_nil_r, <- !app_assoc. reflexivity.
Qed.

End WithServer.

Lemma fetchAllLectures_two_requests_catalog_thrice_witness :
  exists w',
    fetchAllLectures (fun _ => [Samples.algorithms]) 1 2 3 4 5 6 Samples.page_loaded
    = ([[Samples.algorithms]; [Samples.algorithms]; [Samples.algorithms];
        [Samples.algorithms]; [Samples.algorithms]; [Samples.algorithms]], w') /\
    requests w' = ["/schedules-majors.json"; "/schedules-liberal-arts.json"].
Proof.
  destruct (fetchAllLectures_two_requests_catalog_thrice (fun _ => [Samples.algorithms])
              1 2 3 4 5 6 Samples.page_loaded ∅ eq_refl)
    as (w' & Hrun & Hreq & _).
  - apply lookup_empty.
  - apply lookup_empty.
  - exists w'. split; [exact Hrun | exact Hreq].
Defined.

End LoadingFacts.

(** * Distinct values, colours and the delete button *)

Module SetLemmas.
Import JS JSSet.

Lemma includes_string_elem (xs : list string) (x : string) :
  includes_string xs x = true <-> x ∈ xs.
Proof.
  unfold includes_string. rewrite existsb_exists. split.
  - intros (y & Hy & Heq). apply String.eqb_eq in Heq. subst.
    now apply list_elem_of_In.
  - intros H. exists x. split; [now apply list_elem_of_In | apply String.eqb_refl].
Qed.

Lemma add_all_app (acc xs ys : list string) :
  add_all acc (xs ++ ys) = add_all (add_all acc xs) ys.
Proof. revert acc. induction xs as [|x xs IH]; intros acc; simpl; [reflexivity | apply IH]. Qed.

Lemma add_all_prefix (acc xs : list string) : acc `prefix_of` add_all acc xs.
Proof.
  revert acc. induction xs as [|x xs IH]; intros acc; simpl; [reflexivity|].
  destruct (includes_string acc x); [apply IH|].
  etransitivity; [|apply IH]. now apply prefix_app_r.
Qed.

Lemma add_all_NoDup (acc xs : list string) : NoDup acc -> NoDup (add_all acc xs).
Proof.
  revert acc. induction xs as [|x xs IH]; intros acc Hacc; simpl; [exact Hacc|].
  destruct (includes_string acc x) eqn:E; apply IH; [exact Hacc|].
  apply NoDup_app. split; [exact Hacc|]. split; [|apply NoDup_singleton].
  intros y Hy Hin. apply list_elem_of_singleton in Hin. subst y.
  apply includes_string_elem in Hy. congruence.
Qed.

Lemma add_all_elem (acc xs : list string) (x : string) :
  x ∈ add_all acc xs <-> x ∈ acc \/ x ∈ xs.
Proof.
  revert acc. induction xs as [|y xs IH]; intros acc; simpl.
  - split; [now left|]. intros [H|H]; [exact H|]. now apply not_elem_of_nil in H.
  - rewrite IH, elem_of_cons. destruct (includes_string acc y) eqn:E.
    + apply includes_string_elem in E. split; [tauto|].
      intros [H|[->|H]]; tauto.
    + rewrite elem_of_app, list_elem_of_singleton. tauto.
Qed.

Lemma unique_NoDup (xs : list string) : NoDup (unique xs).
Proof. apply add_all_NoDup. constructor. Qed.

Lemma unique_elem (xs : list string) (x : string) : x ∈ unique xs <-> x ∈ xs.
Proof.
  unfold unique. rewrite add_all_elem. split; [|now right].
  intros [H|H]; [now apply not_elem_of_nil in H | exact H].
Qed.

Lemma unique_app_prefix (xs ys : list string) :
  unique xs `prefix_of` unique (xs ++ ys).
Proof. unfold unique. rewrite add_all_app. apply add_all_prefix. Qed.

End SetLemmas.

Module TableViewFacts.
Import JS Types Constants ScheduleTable SetLemmas StoreFacts StoreLemmas.

Lemma set_colors_absent (index : nat) (lectures : list string)
    (map : gmap string string) (x : string) :
  x ∉ lectures -> set_colors index lectures map !! x = map !! x.
Proof.
  revert index map. induction lectures as [|y ys IH]; intros index map Hx; simpl;
    [reflexivity|].
  apply not_elem_of_cons in Hx as [Hne Hx].
  rewrite IH by exact Hx. now apply lookup_insert_ne.
Qed.

Lemma set_colors_at (index : nat) (lectures : list string)
    (map : gmap string string) (x : string) (j : nat) :
  NoDup lectures -> lectures !! j = Some x ->
  set_colors index lectures map !! x
  = Some (nth ((index + j) mod length colors) colors "").
Proof.
  revert index map j. induction lectures as [|y ys IH]; intros index map j Hnd Hj;
    [discriminate|].
  apply NoDup_cons in Hnd as [Hy Hnd]. destruct j as [|j]; simpl in Hj;
    cbn [set_colors].
  - injection Hj as ->. rewrite set_colors_absent by exact Hy.
    rewrite lookup_insert_eq, Nat.add_0_r. reflexivity.
  - rewrite (IH (S index) _ j Hnd Hj).
    replace (S index + j)%nat with (index + S j)%nat by lia. reflexivity.
Qed.

Lemma color_not_empty (n : nat) : nth (n mod length colors) colors "" <> "".
Proof.
  assert (H : (n mod length colors < 6)%nat) by (apply Nat.mod_upper_bound; discriminate).
  destruct (n mod length colors)%nat as [|[|[|[|[|[|k]]]]]]; simpl; try discriminate. lia.
Qed.

(** X25: a lecture's colour is decided by its rank among the distinct
    lecture ids of the table, in order of first appearance: the lecture of
    rank [j] gets [colors[j % 6]] (so the seventh lecture shares the colour
    of the first), and an id that no entry of the table carries gets the
    fallback ["#fdd"]. *)
Theorem getColor_by_rank (schedules : list Schedule) (lectureId : string) (j : nat) :
  JSSet.unique (List.map (fun s => id (lecture s)) schedules) !! j = Some lectureId ->
  getColor schedules lectureId = nth (j mod 6) colors "" /\
  (forall other,
      (forall s, In s schedules -> id (lecture s) <> other) ->
      getColor schedules other = "#fdd").
Proof.
  intros Hj. split.
  - unfold getColor, colorMap.
    rewrite (set_colors_at 0 _ ∅ lectureId j (unique_NoDup _) Hj). simpl Nat.add.
    destruct (String.eqb_spec (nth (j mod length colors) colors "") "") as [He|_];
      [now apply color_not_empty in He | reflexivity].
  - intros other Hother. unfold getColor, colorMap.
    rewrite set_colors_absent; [reflexivity|].
    rewrite unique_elem. intros Hin. apply list_elem_of_In, in_map_iff in Hin
      as (s & Hs & Hin). exact (Hother s Hin Hs).
Qed.

Lemma getColor_by_rank_witness :
  getColor [Samples.monday_slot; Samples.friday_slot] "CS900" = "#ffd".
Proof.
  apply (proj1 (getColor_by_rank [Samples.monday_slot; Samples.friday_slot]
                  "CS900" 1 eq_refl)).
Defined.

(** X26: appending entries to a table never changes the colour of a lecture
    that is already on it. *)
Theorem getColor_stable_when_entries_are_added
    (schedules more : list Schedule) (e : Schedule) :
  In e schedules ->
  getColor (schedules ++ more) (id (lecture e)) = getColor schedules (id (lecture e)).
Proof.
  intros He.
  assert (Hin : id (lecture e) ∈ JSSet.unique (List.map (fun s => id (lecture s)) schedules)).
  { apply unique_elem, list_elem_of_In, in_map_iff. eauto. }
  apply list_elem_of_lookup in Hin as [j Hj].
  assert (Hj' : JSSet.unique (List.map (fun s => id (lecture s)) (schedules ++ more)) !! j
                = Some (id (lecture e))).
  { rewrite List.map_app. eapply prefix_lookup_Some; [exact Hj|].
    apply unique_app_prefix. }
  unfold getColor, colorMap.
  rewrite (set_colors_at 0 _ ∅ _ j (unique_NoDup _) Hj).
  rewrite (set_colors_at 0 _ ∅ _ j (unique_NoDup _) Hj'). reflexivity.
Qed.

Lemma getColor_stable_when_entries_are_added_witness :
  getColor ([Samples.monday_slot] ++ [Samples.friday_slot]) "CS101"
  = getColor [Samples.monday_slot] "CS101".
Proof.
  apply (getColor_stable_when_entries_are_added [Samples.monday_slot]
           [Samples.friday_slot] Samples.monday_slot).
  left. reflexivity.
Defined.

(** X24: pressing the delete button of an entry whose range starts with
    [first] replaces the list of its table by that list without the entries
    that are on the entry's day and cover [first]: the entry itself and
    every other entry of the same day whose range covers [first] are
    removed, every remaining occurrence is kept in its order, and the other
    tables are untouched.  For an entry with an empty range the button
    removes nothing. *)
Theorem delete_button_removes_the_entry
    (m : ScheduleContext.SchedulesMap) (tableId : string)
    (l : list Schedule) (e : Schedule) :
  m !! tableId = Some l ->
  In e l ->
  (range e = [] -> deleteButtonClick tableId e m = Ok m) /\
  (forall first rest, range e = first :: rest ->
   exists l1,
     deleteButtonClick tableId e m = Ok (<[tableId := l1]> m) /\
     l1 = filter (fun e' => ~ (day e' = day e /\ first ∈ range e')) l /\
     ~ In e l1 /\
     (forall e', day e' = day e -> In first (range e') -> ~ In e' l1) /\
     (forall e', In e' l -> ~ (day e' = day e /\ In first (range e')) ->
                 In e' l1) /\
     (forall e', In e' l -> day e' <> day e -> In e' l1) /\
     l1 `sublist_of` l /\
     length l1 < length l)%nat.
Proof.
  intros Hm He. unfold deleteButtonClick. split.
  - intros ->. simpl. rewrite (get_iterable_Some _ _ _ Hm). simpl.
    rewrite filter_all by reflexivity. f_equal. now apply insert_id.
  - intros time rest Hr. rewrite Hr. simpl.
    pose (l1 := List.filter
                  (fun s => negb (String.eqb (day s) (day e))
                            || negb (includes_number (range s) time)) l).
    assert (Hin : forall e', In e' l1 <->
                    In e' l /\ ~ (day e' = day e /\ In time (range e'))).
    { intros e'. unfold l1. rewrite filter_In, kept_iff. reflexivity. }
    assert (Hgone : ~ In e l1).
    { rewrite Hin. intros [_ Hnot]. apply Hnot.
      split; [reflexivity|]. rewrite Hr. now left. }
    exists l1.
    split; [now apply removeSchedule_Ok|].
    split; [apply removeSchedule_filter|].
    split; [exact Hgone|].
    split; [|split; [|split; [|split]]].
    + intros e' Hday Hcov He'. apply Hin in He' as [_ Hnot]. now apply Hnot.
    + intros e' He' Hnot. apply Hin. now split.
    + intros e' He' Hday. apply Hin. split; [exact He'|].
      intros [Hd _]. contradiction.
    + apply filter_sublist.
    + destruct (Nat.lt_ge_cases (length l1) (length l)) as [Hlt|Hge];
        [exact Hlt|]. exfalso. apply Hgone.
      assert (Hsub : l1 `sublist_of` l) by apply filter_sublist.
      apply sublist_submseteq in Hsub.
      apply (Permutation_in e (Permutation_sym (submseteq_length_Permutation _ _ Hsub Hge))).
      exact He.
Qed.

Lemma delete_button_removes_the_entry_witness :
  exists l1,
    deleteButtonClick "schedule-1" Samples.friday_slot Samples.one_table
    = Ok (<["schedule-1" := l1]> Samples.one_table) /\
    l1 = [Samples.monday_slot] /\
    ~ In Samples.friday_slot l1 /\
    In Samples.monday_slot l1.
Proof.
  destruct (delete_button_removes_the_entry Samples.one_table "schedule-1"
              [Samples.monday_slot; Samples.friday_slot] Samples.friday_slot)
    as [_ Hdel].
  - apply lookup_singleton_eq.
  - right. left. reflexivity.
  - destruct (Hdel 5 [6; 7] eq_refl)
      as (l1 & Hrun & Heq & Hgone & _ & _ & Hkeep & _).
    exists l1. split; [exact Hrun|]. split; [rewrite Heq; now vm_compute|].
    split; [exact Hgone|].
    apply Hkeep; [left; reflexivity | discriminate].
Defined.

End TableViewFacts.

(** * Further properties of the search dialog *)

Module SearchExtras.
Import JS Types SearchDialog SearchResults SetLemmas StoreLemmas FilterFacts.

(** X23: the major list of the dialog holds every major of the catalog once,
    in order of first appearance; loading more lectures only appends to it. *)
Theorem allMajors_distinct_in_order (lectures more : list Lecture) :
  NoDup (allMajors lectures) /\
  (forall m, In m (allMajors lectures) <->
             exists lecture, In lecture lectures /\ major lecture = m) /\
  allMajors lectures `prefix_of` allMajors (lectures ++ more).
Proof.
  unfold allMajors. split; [apply unique_NoDup|]. split.
  - intros m. rewrite <- list_elem_of_In, unique_elem, list_elem_of_In, in_map_iff.
    split; intros (lecture & H1 & H2); exists lecture; tauto.
  - rewrite List.map_app. apply unique_app_prefix.
Qed.

Section WithParser.
Variable parseSchedule : string -> list Session.
Variable toLowerCase : string -> string.

Lemma passes_In (lectures : list Lecture) (o : SearchOption) (lecture : Lecture) :
  In lecture (filteredLectures parseSchedule toLowerCase lectures o) <->
  In lecture lectures /\ passes parseSchedule toLowerCase o lecture = true.
Proof. rewrite filteredLectures_one_pass. apply filter_In. Qed.

Lemma matches_query_empty (lecture : Lecture) :
  toLowerCase "" = "" -> matches_query toLowerCase "" lecture = true.
Proof. intros H. unfold matches_query. now rewrite H, !includes_empty. Qed.

(** X19: the result is always a sub-list of the catalog in catalog order,
    filtering the result again with the same options changes nothing, and
    with every dimension inactive (empty query text, empty grade, major, day
    and time sets, credits unset or zero) the whole catalog is the result. *)
Theorem filter_sublist_idempotent_inactive
    (lectures : list Lecture) (o : SearchOption) :
  filteredLectures parseSchedule toLowerCase lectures o `sublist_of` lectures /\
  filteredLectures parseSchedule toLowerCase
    (filteredLectures parseSchedule toLowerCase lectures o) o
  = filteredLectures parseSchedule toLowerCase lectures o /\
  (toLowerCase "" = "" ->
   default "" (query o) = "" -> grades o = [] -> majors o = [] ->
   days o = [] -> times o = [] -> not_credits (so_credits o) = true ->
   filteredLectures parseSchedule toLowerCase lectures o = lectures).
Proof.
  rewrite !filteredLectures_one_pass. split; [apply filter_sublist|].
  split; [apply filter_idem|].
  intros Hlower Hq Hg Hm Hd Ht Hc. apply filter_all. intros lecture _.
  unfold passes, matches_grades, matches_majors, matches_credits,
    matches_days, matches_times.
  rewrite Hq, Hg, Hm, Hd, Ht, Hc. simpl.
  now rewrite (matches_query_empty lecture Hlower).
Qed.

(** X20: with only the grade set in use, the result is exactly the lectures
    whose grade is one of the selected grades, in catalog order. *)
Theorem grades_filter_keeps_selected_grades
    (lectures : list Lecture) (o : SearchOption) :
  toLowerCase "" = "" ->
  default "" (query o) = "" ->
  grades o <> [] ->
  majors o = [] -> days o = [] -> times o = [] ->
  not_credits (so_credits o) = true ->
  filteredLectures parseSchedule toLowerCase lectures o
  = List.filter (fun lecture => includes_number (grades o) (grade lecture)) lectures /\
  forall lecture,
    In lecture (filteredLectures parseSchedule toLowerCase lectures o) <->
    In lecture lectures /\ In (grade lecture) (grades o).
Proof.
  intros Hlower Hq Hg Hm Hd Ht Hc.
  assert (Heq : filteredLectures parseSchedule toLowerCase lectures o
                = List.filter (fun lecture => includes_number (grades o) (grade lecture))
                    lectures).
  { rewrite filteredLectures_one_pass. apply filter_ext. intros lecture.
    unfold passes, matches_grades, matches_majors, matches_credits,
      matches_days, matches_times.
    rewrite Hq, Hm, Hd, Ht, Hc, (matches_query_empty lecture Hlower). simpl.
    destruct (grades o); [contradiction|]. simpl. now rewrite !andb_true_r. }
  split; [exact Heq|].
  intros lecture. rewrite Heq, filter_In, includes_number_In. reflexivity.
Qed.

(** X21: a lecture that passes a non-empty day filter has a non-empty
    schedule text with a session on one of the selected days, and one that
    passes a non-empty time filter has a session covering one of the
    selected slots; a lecture without schedule text passes neither.  The two
    filters look at the sessions independently of each other. *)
Theorem day_and_time_filters_need_a_session
    (lectures : list Lecture) (o : SearchOption) (lecture : Lecture) :
  In lecture (filteredLectures parseSchedule toLowerCase lectures o) ->
  (days o <> [] ->
   schedule lecture <> "" /\
   exists s, In s (parseSchedule (schedule lecture)) /\ In (s_day s) (days o)) /\
  (times o <> [] ->
   schedule lecture <> "" /\
   exists s t, In s (parseSchedule (schedule lecture)) /\
               In t (s_range s) /\ In t (times o)).
Proof.
  intros Hin. apply passes_In in Hin as [_ Hpass]. unfold passes in Hpass.
  rewrite !andb_true_iff in Hpass.
  destruct Hpass as [[[[[_ _] _] _] Hdays] Htimes]. split.
  - intros Hne. unfold matches_days, schedules_of in Hdays.
    assert (Hlen : (length (days o) =? 0)%nat = false)
      by (destruct (days o); [contradiction | reflexivity]).
    rewrite Hlen in Hdays.
    destruct (String.eqb_spec (schedule lecture) "") as [_|Hs]; [discriminate|].
    split; [exact Hs|]. apply existsb_exists in Hdays as (s & Hs1 & Hs2).
    exists s. split; [exact Hs1|].
    apply includes_string_elem, list_elem_of_In in Hs2. exact Hs2.
  - intros Hne. unfold matches_times, schedules_of in Htimes.
    assert (Hlen : (length (times o) =? 0)%nat = false)
      by (destruct (times o); [contradiction | reflexivity]).
    rewrite Hlen in Htimes.
    destruct (String.eqb_spec (schedule lecture) "") as [_|Hs]; [discriminate|].
    split; [exact Hs|]. apply existsb_exists in Htimes as (s & Hs1 & Hs2).
    apply existsb_exists in Hs2 as (time & Ht1 & Ht2).
    exists s, time. split; [exact Hs1|]. split; [exact Ht1|].
    now apply includes_number_In in Ht2.
Qed.

End WithParser.

Lemma grades_filter_keeps_selected_grades_witness :
  filteredLectures (fun _ => []) (fun s => s)
    [Samples.algorithms; Samples.seminar]
    {| query := None; grades := [2; 3]; days := []; times := []; majors := [];
       so_credits := None |}
  = List.filter (fun lecture => includes_number [2; 3] (grade lecture))
      [Samples.algorithms; Samples.seminar].
Proof.
  apply (proj1 (grades_filter_keeps_selected_grades (fun _ => []) (fun s => s)
                  [Samples.algorithms; Samples.seminar]
                  {| query := None; grades := [2; 3]; days := []; times := [];
                     majors := []; so_credits := None |}
                  eq_refl eq_refl ltac:(discriminate) eq_refl eq_refl eq_refl eq_refl)).
Defined.

Lemma day_and_time_filters_need_a_session_witness :
  schedule Samples.algorithms <> "" /\
  exists s,
    In s [{| s_day := "월"; s_range := [1; 2]; s_room := "A101" |}] /\
    In (s_day s) ["월"].
Proof.
  apply (proj1 (day_and_time_filters_need_a_session
                  (fun _ => [{| s_day := "월"; s_range := [1; 2]; s_room := "A101" |}])
                  (fun s => s)
                  [Samples.algorithms; Samples.seminar]
                  {| query := None; grades := []; days := ["월"]; times := [];
                     majors := []; so_credits := None |}
                  Samples.algorithms
                  ltac:(vm_compute; left; reflexivity))).
  discriminate.
Defined.

Lemma lastPage_bounds (filtered : list Lecture) :
  (lastPage filtered - 1) * 100 < Z.of_nat (length filtered) <= lastPage filtered * 100.
Proof.
  unfold lastPage, PAGE_SIZE.
  set (n := Z.of_nat (length filtered)).
  pose proof (Qle_ceiling (inject_Z n / inject_Z 100)) as Hhi.
  pose proof (Qceiling_lt (inject_Z n / inject_Z 100)) as Hlo.
  set (L := Qceiling (inject_Z n / inject_Z 100)) in *.
  assert (Hdiv : (inject_Z n / inject_Z 100 == inject_Z n * (1 # 100))%Q)
    by reflexivity.
  rewrite Hdiv in Hhi, Hlo.
  split.
  - rewrite Zlt_Qlt, inject_Z_mult. change (inject_Z 100) with 100%Q. lra.
  - rewrite Zle_Qle, inject_Z_mult. change (inject_Z 100) with 100%Q. lra.
Qed.

(** X22: the visible rows are the first [page * 100] filtered lectures (all
    of them when there are fewer); from page [lastPage] on every filtered
    lecture is visible, and before that exactly [page * 100] are. *)
Theorem visible_rows_are_a_growing_prefix (filtered : list Lecture) (page : Z) :
  0 <= page ->
  visibleLectures filtered page `prefix_of` filtered /\
  Z.of_nat (length (visibleLectures filtered page))
  = Z.min (page * PAGE_SIZE) (Z.of_nat (length filtered)) /\
  (lastPage filtered <= page -> visibleLectures filtered page = filtered) /\
  (page < lastPage filtered ->
   Z.of_nat (length (visibleLectures filtered page)) = page * PAGE_SIZE).
Proof.
  intros Hpage. pose proof (lastPage_bounds filtered) as [Hlo Hhi].
  unfold visibleLectures, slice0, PAGE_SIZE.
  destruct (Z.ltb_spec (page * 100) 0) as [Hneg|_]; [lia|].
  split; [apply prefix_take|]. rewrite length_take.
  split; [lia|]. split.
  - intros Hlast. apply take_ge. lia.
  - intros Hbefore. lia.
Qed.

Lemma visible_rows_are_a_growing_prefix_witness :
  visibleLectures [Samples.algorithms; Samples.seminar] 1
  = [Samples.algorithms; Samples.seminar].
Proof.
  apply (proj1 (proj2 (proj2 (visible_rows_are_a_growing_prefix
                                [Samples.algorithms; Samples.seminar] 1 ltac:(lia))))).
  vm_compute. discriminate.
Defined.

Lemma nextPage_iter (L : Z) (k : nat) :
  (1 <= k)%nat -> Nat.iter k (nextPage L) 1 = Z.min L (1 + Z.of_nat k).
Proof.
  induction k as [|k IH]; [lia|]. intros _. simpl Nat.iter.
  destruct k as [|k]; [unfold nextPage; simpl; lia|].
  rewrite IH by lia. unfold nextPage. lia.
Qed.

(** X27: starting from page 1, after [k >= 1] firings of the scroll observer
    the page is [min(lastPage, k + 1)]: it never passes [lastPage], it drops
    to 0 when nothing matches, and once [k + 1] reaches [lastPage] every
    filtered lecture is visible. *)
Theorem scrolling_reaches_the_last_page (filtered : list Lecture) (k : nat) :
  (1 <= k)%nat ->
  let page := Nat.iter k (nextPage (lastPage filtered)) 1 in
  page = Z.min (lastPage filtered) (1 + Z.of_nat k) /\
  0 <= page <= lastPage filtered /\
  (filtered = [] -> page = 0) /\
  (lastPage filtered <= 1 + Z.of_nat k -> visibleLectures filtered page = filtered).
Proof.
  intros Hk page. subst page. rewrite (nextPage_iter _ k Hk).
  pose proof (lastPage_bounds filtered) as [Hlo Hhi].
  split; [reflexivity|]. split; [lia|]. split.
  - intros ->. simpl in *. lia.
  - intros Hreach. rewrite Z.min_l by exact Hreach.
    unfold visibleLectures, slice0, PAGE_SIZE.
    destruct (Z.ltb_spec (lastPage filtered * 100) 0) as [Hneg|_]; [lia|].
    apply take_ge. lia.
Qed.

Lemma scrolling_reaches_the_last_page_witness :
  Nat.iter 3 (nextPage (lastPage [Samples.algorithms; Samples.seminar])) 1
  = Z.min (lastPage [Samples.algorithms; Samples.seminar]) (1 + Z.of_nat 3).
Proof.
  apply (proj1 (scrolling_reaches_the_last_page
                  [Samples.algorithms; Samples.seminar] 3 ltac:(lia))).
Defined.

End SearchExtras.

(** * A later call, on the loaded page *)

Module CacheExtras.
Import JS Types SearchDialog CacheFacts.

Lemma later_call_shares_promise_witness :
  fst (fetch LiberalArts 9
         (steps [Call Majors 3; Settle 0%nat [Samples.algorithms]]
            (snd (fetch LiberalArts 1 Samples.page_loaded))))
  = fst (fetch LiberalArts 1 Samples.page_loaded).
Proof.
  apply (proj1 (later_call_shares_promise LiberalArts 1 9
                  [Call Majors 3; Settle 0%nat [Samples.algorithms]]
                  Samples.page_loaded ∅ eq_refl (lookup_empty _))).
Defined.

End CacheExtras.
